(** * sync-pcrs-projects: a shallow embedding of [src/sync.py]

    The script reconciles an Airtable table with a CSV export.  Tables are
    pandas data frames; the embedding keeps the part of pandas the script
    uses (column access, [isin], boolean masks, [set_index], inner [align],
    element-wise [eq], [all(axis=1)], [iterrows], [loc], [to_dict], [head],
    [empty]) and threads the console output and the HTTP traffic through a
    small monad over the history of events. *)

From stdpp Require Import base list strings gmap pretty.
From Stdlib Require Import ZArith.

Local Open Scope Z_scope.
Local Open Scope string_scope.
Local Open Scope list_scope.

(** ** Cells

    A scalar held in a data frame.  [NaN] stands for every missing value
    (float NaN as well as Python's None, which pandas treats alike in the
    operations used here).  Floating-point numbers other than NaN are not
    represented; integers and booleans are Python's own, as [to_dict] and a
    row of a frame that also has a text column give them. *)

Inductive cell :=
| NaN
| Str (s : string)
| Int (z : Z)
| Bool (b : bool).

#[global] Instance cell_eq_dec : EqDecision cell.
Proof. solve_decision. Defined.

Definition isnull (c : cell) : bool :=
  match c with NaN => true | _ => false end.

(** Python's [==] on two present scalars ([True == 1] holds in Python). *)
Definition py_eq (x y : cell) : bool :=
  match x, y with
  | Str s, Str t => bool_decide (s = t)
  | Int a, Int b => bool_decide (a = b)
  | Bool a, Bool b => bool_decide (a = b)
  | Int a, Bool b | Bool b, Int a => bool_decide (a = Z.b2z b)
  | _, _ => false
  end.

(** Element of [Series.eq] / [DataFrame.eq]: a missing value on either side
    compares unequal, also to another missing value. *)
Definition cell_eq (x y : cell) : bool :=
  if isnull x || isnull y then false else py_eq x y.

(** Sameness of labels in pandas' hash tables ([isin], index joins, [loc]):
    like [==], but two missing values are the same label. *)
Definition cell_same (x y : cell) : bool :=
  (isnull x && isnull y) || py_eq x y.

(** ** Data frames *)

Abbreviation row := (gmap string cell).

(** [r @@ c]: the cell of row [r] under column [c]; a key that the row's
    dict did not have was filled with NaN by the frame constructor. *)
Definition cell_at (r : row) (c : string) : cell := default NaN (r !! c).
Infix "@@" := cell_at (at level 20).

Record DataFrame := mkDF {
  columns : gset string;
  rows : list row
}.

(** [pd.DataFrame(data)] for a list of dicts: the columns are the keys seen. *)
Definition DataFrame_of_dicts (data : list row) : DataFrame :=
  mkDF (⋃ (dom <$> data)) data.

Definition column (df : DataFrame) (c : string) : list cell :=
  (λ r, r @@ c) <$> rows df.

(** [values.isin(others)] *)
Definition isin (values others : list cell) : list bool :=
  (λ x, existsb (cell_same x) others) <$> values.

(** [~mask] *)
Definition invert (mask : list bool) : list bool := negb <$> mask.

(** Selection by a boolean mask, [df[mask]], on the rows. *)
Fixpoint mask_rows {A} (mask : list bool) (l : list A) : list A :=
  match mask, l with
  | b :: mask', x :: l' => if b then x :: mask_rows mask' l' else mask_rows mask' l'
  | _, _ => []
  end.

Definition mask_df (df : DataFrame) (mask : list bool) : DataFrame :=
  mkDF (columns df) (mask_rows mask (rows df)).

(** [df.head()] keeps the first five rows. *)
Definition df_head (df : DataFrame) : DataFrame :=
  mkDF (columns df) (take 5 (rows df)).

(** [df.empty]: some axis has length zero. *)
Definition df_empty (df : DataFrame) : bool :=
  bool_decide (rows df = []) || bool_decide (columns df = ∅).

(** A frame after [set_index]: every row carries its index label. *)
Record IndexedFrame := mkIX {
  icolumns : gset string;
  irows : list (cell * row)
}.

Definition index (f : IndexedFrame) : list cell := fst <$> irows f.

(** [df.set_index(c)]: the column becomes the index and leaves the columns. *)
Definition set_index (c : string) (df : DataFrame) : IndexedFrame :=
  mkIX (columns df ∖ {[c]}) ((λ r, (r @@ c, delete c r)) <$> rows df).

Fixpoint unique_labels (l : list cell) : bool :=
  match l with
  | [] => true
  | x :: l' => negb (existsb (cell_same x) l') && unique_labels l'
  end.

(** Row of a uniquely indexed frame under label [k]. *)
Definition loc_row (f : IndexedFrame) (k : cell) : option row :=
  snd <$> find (λ p, cell_same k p.1) (irows f).

(** [a.align(p, join="inner", axis=0)] for uniquely indexed frames: the
    labels of [a] that [p] has too, in the order of [a]; [p] is re-indexed
    to them.  [None] when an index has a repeated label: pandas then takes
    the product of the matching rows, which is not modelled. *)
Definition align_inner (a p : IndexedFrame) : option (IndexedFrame * IndexedFrame) :=
  if unique_labels (index a) && unique_labels (index p) then
    let a' := filter (λ x, existsb (cell_same x.1) (index p)) (irows a) in
    let p' := omap (λ x, pair x.1 <$> loc_row p x.1) a' in
    Some (mkIX (icolumns a) a', mkIX (icolumns p) p')
  else None.

(** [s.to_dict()] of the series [r[cols]]. *)
Definition to_dict (cols : list string) (r : row) : row :=
  list_to_map ((λ c, (c, r @@ c)) <$> cols).

(** Row-wise [a[cols].eq(p[cols]).all(axis=1)] on two aligned frames. *)
Definition eq_all (cols : list string) (a p : IndexedFrame) : list bool :=
  (λ x, forallb (λ c, cell_eq (x.1.2 @@ c) (x.2.2 @@ c)) cols) <$> zip (irows a) (irows p).

(** ** Events, outcomes and the monad

    Console output is kept as structured messages, one constructor per
    [print] of the script. *)

Inductive message :=
| MStep1 | MStep2 | MStep3 | MBlank | MCompleted
| MFoundAirtable (n : nat)          (* Found {n} records in Airtable *)
| MFoundExport (n : nat)            (* Found {n} records in PCRS CSV export *)
| MSyncDifferent                    (* Synchronizing different records... *)
| MFoundDifferent (n : nat)         (* Found {n} records with differences *)
| MUpdateError (id : cell) (status : Z)
| MUpdateOk (id : cell)
| MSyncMissing                      (* Synchronizing missing records... *)
| MFoundMissing (n : nat)           (* Found {n} records missing in Airtable *)
| MCreating (records : list row)    (* Creating new record with data: ... *)
| MCreateError (status : Z)
| MResponseJson (body : string)
| MCreateOk
| MSyncDeleted                      (* Synchronizing deleted records... *)
| MFoundDeleted (n : nat)           (* Found {n} records missing in PCRS *)
| MFrame (df : DataFrame).          (* print(deleted_records.head()) *)

Inductive request :=
| GET_table (offset : option string)          (* params of the listing request *)
| GET_export
| PATCH (record_id : cell) (fields : row)     (* {airtable_base_url}/{id}, {"fields": ...} *)
| POST (records : list row).                  (* {"records": [{"fields": ...}]} *)

Inductive event :=
| Print (m : message)
| Request (r : request).

Abbreviation trace := (list event).

(** Python exceptions the script can run into.  KeyError carries the key;
    requests' InvalidJSONError is kept with the request whose payload was
    refused; JSONDecodeError is what [response.json()] raises on a body that
    is not JSON. *)
Inductive exn :=
| KeyError (key : cell)
| TypeError
| InvalidJSONError (refused : request)
| JSONDecodeError.

Inductive outcome (A : Type) :=
| Ret (a : A)
| Raise (e : exn)
| NonUniqueIndex      (* a repeated pivot label reached the join: not modelled *)
| OutOfFuel.          (* the pagination loop did not stop within the fuel *)
Arguments Ret {A} a.
Arguments Raise {A} e.
Arguments NonUniqueIndex {A}.
Arguments OutOfFuel {A}.

(** A computation maps the history of events so far to the history after it
    and its outcome. *)
Definition M (A : Type) : Type := trace → trace * outcome A.

#[global] Instance M_ret : MRet M := λ A a h, (h, Ret a).
#[global] Instance M_bind : MBind M := λ A B k m h,
  match m h with
  | (h', Ret a) => k a h'
  | (h', Raise e) => (h', Raise e)
  | (h', NonUniqueIndex) => (h', NonUniqueIndex)
  | (h', OutOfFuel) => (h', OutOfFuel)
  end.

Definition raise {A} (e : exn) : M A := λ h, (h, Raise e).

Definition emit (e : event) : M unit := λ h, (h ++ [e], Ret tt).
Definition print (m : message) : M unit := emit (Print m).

(** [for x in l: body x] *)
Fixpoint for_each {A} (l : list A) (body : A → M unit) : M unit :=
  match l with
  | [] => mret tt
  | x :: l' => body x ;; for_each l' body
  end.

(** ** The outside world *)

Record response := mkResponse {
  status_code : Z;
  text : string;
  json : option string          (* response.json(); None: the body is not JSON *)
}.

(** One element of ["records"] in a listing response. *)
Record api_record := mkRecord {
  rec_fields : option row;      (* None: no "fields" key *)
  rec_id : option string        (* None: no "id" key *)
}.

(** [response.json()] of a listing response. *)
Record page := mkPage {
  page_records : option (list api_record);   (* None: no "records" key *)
  page_offset : option string                (* None: no "offset" key, or null *)
}.

(** Each server answers from the history of the run and the request.  The
    HTTP library is taken to deliver every call it accepts and to come back
    with a response: a lost connection is not modelled.  What it does not
    accept is a payload that it cannot encode, see [encodable].  The answer
    to a listing request is given decoded, as a [page]; the answer to a
    write carries its body both as text and decoded. *)
Record World := mkWorld {
  table_api : trace → option string → page;
  export_http : trace → response;
  write_api : trace → request → response;
  read_csv : string → DataFrame              (* pd.read_csv(StringIO(text)) *)
}.

(** Truth value of an offset token, a string in Airtable's API: None and
    the empty string are falsy. *)
Definition truthy (offset : option string) : bool :=
  match offset with
  | Some s => negb (bool_decide (s = ""))
  | None => false
  end.

(** [record.get("id")] as a cell. *)
Definition id_cell (id : option string) : cell :=
  match id with Some s => Str s | None => NaN end.

(** [json.dumps(payload, allow_nan=False)], with which requests encodes the
    [json=] argument of [patch] and [post]: the missing value (float NaN,
    which [to_dict] yields for an empty cell of the export) is refused. *)
Definition encodable_dict (d : row) : bool :=
  bool_decide (map_Forall (λ _ v, isnull v = false) d).

Definition encodable (q : request) : bool :=
  match q with
  | PATCH _ fields => encodable_dict fields
  | POST records => forallb encodable_dict records
  | _ => true
  end.

(** ** Configuration (lines 8-12) *)

(** [{**d, **e}]: the keys of [e] override those of [d]. *)
Definition dict_update {V} (d e : gmap string V) : gmap string V := e ∪ d.

(** Values of [dotenv_values] may be None (a key without a value). *)
Definition config (env_shared env_secret os_environ : gmap string (option string))
  : gmap string (option string) :=
  dict_update (dict_update (dict_update ∅ env_shared) env_secret) os_environ.

(** ** Settings (lines 15-31)

    What the module reads from [config] when it is loaded. *)

Inductive load_error :=
| MissingSetting (key : string)   (* KeyError of [config[key]] *)
| SplitOfNone.                    (* AttributeError: None has no [split] *)

(** [config[key]] *)
Definition config_get (cfg : gmap string (option string)) (key : string)
  : load_error + option string :=
  match cfg !! key with
  | Some v => inr v
  | None => inl (MissingSetting key)
  end.

(** A value inside an f-string: None prints as "None". *)
Definition fstr (v : option string) : string := default "None" v.

(** [s.split(sep)] for a one-character separator. *)
Fixpoint split_on (sep : Ascii.ascii) (s : string) : list string :=
  match s with
  | EmptyString => [EmptyString]
  | String c s' =>
      if Ascii.eqb c sep then EmptyString :: split_on sep s'
      else match split_on sep s' with
           | piece :: pieces => String c piece :: pieces
           | [] => [String c EmptyString]
           end
  end.

(** [sep.join(pieces)] *)
Fixpoint join_with (sep : Ascii.ascii) (pieces : list string) : string :=
  match pieces with
  | [] => EmptyString
  | [piece] => piece
  | piece :: rest => piece +:+ String sep (join_with sep rest)
  end.

(** [c in s] *)
Fixpoint has_char (c : Ascii.ascii) (s : string) : bool :=
  match s with
  | EmptyString => false
  | String d s' => Ascii.eqb d c || has_char c s'
  end.

(** The character of [","]. *)
Definition comma : Ascii.ascii :=
  match "," with String c _ => c | EmptyString => Ascii.zero end.

Record settings := mkSettings {
  s_access_token : option string;     (* AIRTABLE_ACCESS_TOKEN *)
  s_base_id : option string;          (* AIRTABLE_BASE_ID *)
  s_table_name : option string;       (* AIRTABLE_TABLE_NAME *)
  s_base_url : string;                (* airtable_base_url *)
  s_export_url : option string;       (* CSV_EXPORT_URL *)
  s_authorization : string;           (* headers["Authorization"] *)
  s_pivot_column : option string;     (* PIVOT_COLUMN *)
  s_columns_to_check : list string    (* COLUMNS_TO_CHECK *)
}.

(** The keys in the order in which lines 15-31 read them. *)
Definition required_keys : list string :=
  ["AIRTABLE_ACCESS_TOKEN"; "AIRTABLE_BASE_ID"; "AIRTABLE_TABLE_NAME";
   "CSV_EXPORT_URL"; "PIVOT_COLUMN"; "COLUMNS_TO_CHECK"].

Definition load_settings (env_shared env_secret os_environ : gmap string (option string))
  : load_error + settings :=
  let cfg := config env_shared env_secret os_environ in
  match config_get cfg "AIRTABLE_ACCESS_TOKEN" with
  | inl e => inl e
  | inr token =>
  match config_get cfg "AIRTABLE_BASE_ID" with
  | inl e => inl e
  | inr base_id =>
  match config_get cfg "AIRTABLE_TABLE_NAME" with
  | inl e => inl e
  | inr table_name =>
  let base_url := "https://api.airtable.com/v0/" +:+ fstr base_id +:+ "/" +:+ fstr table_name in
  match config_get cfg "CSV_EXPORT_URL" with
  | inl e => inl e
  | inr export_url =>
  let authorization := "Bearer " +:+ fstr token in
  match config_get cfg "PIVOT_COLUMN" with
  | inl e => inl e
  | inr pivot =>
  match config_get cfg "COLUMNS_TO_CHECK" with
  | inl e => inl e
  | inr None => inl SplitOfNone
  | inr (Some columns) =>
      inr (mkSettings token base_id table_name base_url export_url authorization
             pivot (split_on comma columns))
  end end end end end end.

(** ** The script *)

Section Script.

(** The settings read at lines 30-31. *)
Context (PIVOT_COLUMN : string) (COLUMNS_TO_CHECK : list string).

(** [requests.get(airtable_base_url, headers=headers, params=params)] *)
Definition http_get_table (W : World) (params : option string) : M page :=
  λ h, (h ++ [Request (GET_table params)], Ret (table_api W h params)).

(** [requests.get(csv_export_url)] *)
Definition http_get_export (W : World) : M response :=
  λ h, (h ++ [Request GET_export], Ret (export_http W h)).

(** [requests.patch] and [requests.post]: the payload is encoded while the
    request is prepared, and nothing is sent when that fails. *)
Definition http_write (W : World) (r : request) : M response :=
  if encodable r then λ h, (h ++ [Request r], Ret (write_api W h r))
  else raise (InvalidJSONError r).

(** The [while True] loop of lines 52-68; [fuel] bounds the number of
    listing requests. *)
Fixpoint fetch_pages (W : World) (fuel : nat) (offset : option string)
    (all_records : list api_record) : M (list api_record) :=
  match fuel with
  | O => λ h, (h, OutOfFuel)
  | S fuel' =>
      let params := if truthy offset then offset else None in
      response_data ← http_get_table W params;
      let records := default [] (page_records response_data) in
      let all_records := all_records ++ records in
      let offset := page_offset response_data in
      if negb (truthy offset) then mret all_records
      else fetch_pages W fuel' offset all_records
  end.

(** Lines 75-76: the record's fields with its identifier added (the dict
    of the record itself is updated; no record is read twice). *)
Definition record_data (record : api_record) : row :=
  <["airtable_record_id" := id_cell (rec_id record)]> (default ∅ (rec_fields record)).

Definition get_airtable_data (W : World) (fuel : nat) : M DataFrame :=
  all_records ← fetch_pages W fuel None [];
  print (MFoundAirtable (length all_records));;
  let data := record_data <$> all_records in
  mret (DataFrame_of_dicts data).

(** What [get_csv_export_data] returns: the frame, or the error text. *)
Inductive pyval :=
| PyStr (s : string)
| PyFrame (df : DataFrame).

Definition get_csv_export_data (W : World) : M pyval :=
  response ← http_get_export W;
  if negb (bool_decide (status_code response = 200)) then
    mret (PyStr ("Error: Unable to download CSV file, status code "
                   +:+ pretty (status_code response)))
  else
    let df := read_csv W (text response) in
    print (MFoundExport (length (rows df)));;
    mret (PyFrame df).

(** [df[c]]: KeyError when the frame has no such column. *)
Definition getitem (df : DataFrame) (c : string) : M (list cell) :=
  if bool_decide (c ∈ columns df) then mret (column df c) else raise (KeyError (Str c)).

(** The export argument at its first subscript [pcrs_df[PIVOT_COLUMN]]: a
    str subscripted by a str raises TypeError. *)
Definition frame_of (v : pyval) : M DataFrame :=
  match v with
  | PyFrame df => mret df
  | PyStr _ => raise TypeError
  end.

(** [f[cols]] needs every label among the columns [have]; pandas' KeyError
    lists the missing labels, the model keeps the first. *)
Definition check_columns (have : gset string) (cols : list string) : M unit :=
  match find (λ c, negb (bool_decide (c ∈ have))) cols with
  | Some c => raise (KeyError (Str c))
  | None => mret tt
  end.

Definition lift_align (r : option (IndexedFrame * IndexedFrame))
  : M (IndexedFrame * IndexedFrame) :=
  match r with
  | Some fs => mret fs
  | None => λ h, (h, NonUniqueIndex)
  end.

(** Body of the loop of lines 155-173. *)
Definition update_record (W : World) (airtable_df pcrs_df : IndexedFrame)
    (it : cell * row) : M unit :=
  let '(index, row) := it in
  _ ← check_columns (icolumns airtable_df) ["airtable_record_id"];
  let airtable_record_id := row @@ "airtable_record_id" in
  match loc_row pcrs_df index with
  | None => raise (KeyError index)
  | Some pcrs_row =>
      let updated_data := to_dict COLUMNS_TO_CHECK pcrs_row in
      response ← http_write W (PATCH airtable_record_id updated_data);
      if negb (bool_decide (status_code response = 200)) then
        print (MUpdateError airtable_record_id (status_code response))
      else
        print (MUpdateOk airtable_record_id)
  end.

Definition synchronize_different_records (W : World) (airtable_df : DataFrame)
    (pcrs_df : pyval) : M unit :=
  print MSyncDifferent;;
  airtable_pivot ← getitem airtable_df PIVOT_COLUMN;
  pcrs_df ← frame_of pcrs_df;
  pcrs_pivot ← getitem pcrs_df PIVOT_COLUMN;
  let common_ids := isin airtable_pivot pcrs_pivot in
  let airtable_df := mask_df airtable_df common_ids in
  let pcrs_df :=
    mask_df pcrs_df (isin (column pcrs_df PIVOT_COLUMN) (column airtable_df PIVOT_COLUMN)) in
  let airtable_df := set_index PIVOT_COLUMN airtable_df in
  let pcrs_df := set_index PIVOT_COLUMN pcrs_df in
  '(airtable_df, pcrs_df) ← lift_align (align_inner airtable_df pcrs_df);
  _ ← check_columns (icolumns airtable_df) COLUMNS_TO_CHECK;
  _ ← check_columns (icolumns pcrs_df) COLUMNS_TO_CHECK;
  let different_records :=
    mask_rows (invert (eq_all COLUMNS_TO_CHECK airtable_df pcrs_df)) (irows airtable_df) in
  print (MFoundDifferent (length different_records));;
  for_each different_records (update_record W airtable_df pcrs_df).

(** Body of the loop of lines 198-221. *)
Definition create_record (W : World) (pcrs_df : DataFrame) (row : row) : M unit :=
  _ ← check_columns (columns pcrs_df) COLUMNS_TO_CHECK;
  let data := to_dict COLUMNS_TO_CHECK row in
  let data := <[PIVOT_COLUMN := row @@ PIVOT_COLUMN]> data in
  let data := [data] in
  print (MCreating data);;
  response ← http_write W (POST data);
  if negb (bool_decide (status_code response = 200)) then
    print (MCreateError (status_code response));;
    match json response with
    | Some body => print (MResponseJson body)
    | None => raise JSONDecodeError
    end
  else
    print MCreateOk.

Definition synchronize_missing_records (W : World) (airtable_df : DataFrame)
    (pcrs_df : pyval) : M unit :=
  print MSyncMissing;;
  pcrs_df ← frame_of pcrs_df;
  pcrs_pivot ← getitem pcrs_df PIVOT_COLUMN;
  airtable_pivot ← getitem airtable_df PIVOT_COLUMN;
  let missing_records := mask_df pcrs_df (invert (isin pcrs_pivot airtable_pivot)) in
  print (MFoundMissing (length (rows missing_records)));;
  for_each (rows missing_records) (create_record W pcrs_df).

Definition synchronize_deleted_records (airtable_df : DataFrame) (pcrs_df : pyval)
  : M unit :=
  print MSyncDeleted;;
  airtable_pivot ← getitem airtable_df PIVOT_COLUMN;
  pcrs_df ← frame_of pcrs_df;
  pcrs_pivot ← getitem pcrs_df PIVOT_COLUMN;
  let deleted_records := mask_df airtable_df (invert (isin airtable_pivot pcrs_pivot)) in
  print (MFoundDeleted (length (rows deleted_records)));;
  if negb (df_empty deleted_records) then print (MFrame (df_head deleted_records))
  else mret tt.

(** Lines 252-275. *)
Definition main (W : World) (fuel : nat) : M unit :=
  print MStep1;;
  airtable_df ← get_airtable_data W fuel;
  print MBlank;;
  print MStep2;;
  pcrs_df ← get_csv_export_data W;
  print MBlank;;
  print MStep3;;
  synchronize_different_records W airtable_df pcrs_df;;
  print MBlank;;
  synchronize_missing_records W airtable_df pcrs_df;;
  print MBlank;;
  synchronize_deleted_records airtable_df pcrs_df;;
  print MBlank;;
  print MCompleted.

(** ** Vocabulary of the properties *)

(** The write requests (PATCH and POST) of a trace, in order. *)
Definition write_of (e : event) : option request :=
  match e with
  | Request (PATCH id fields) => Some (PATCH id fields)
  | Request (POST records) => Some (POST records)
  | _ => None
  end.

Definition writes_of (t : trace) : list request := omap write_of t.

(** What a computation adds to the history [h], and how it ends. *)
Definition emitted {A} (m : M A) (h : trace) : trace := drop (length h) (m h).1.
Definition result {A} (m : M A) (h : trace) : outcome A := (m h).2.

(** The record that the insert pass creates from an export row. *)
Definition new_record (r : row) : row :=
  <[PIVOT_COLUMN := r @@ PIVOT_COLUMN]> (to_dict COLUMNS_TO_CHECK r).

(** Rows of the export whose pivot the remote table lacks. *)
Definition is_missing (airtable_df : DataFrame) (r : row) : bool :=
  negb (existsb (cell_same (r @@ PIVOT_COLUMN)) (column airtable_df PIVOT_COLUMN)).

(** A create request for pivot value [v]. *)
Definition creates_for (v : cell) (q : request) : bool :=
  match q with
  | POST records => existsb (λ f, cell_same (f @@ PIVOT_COLUMN) v) records
  | _ => false
  end.

(** The export row under pivot label [k]. *)
Definition matching_row (pcrs_df : DataFrame) (k : cell) : option row :=
  find (λ re, cell_same k (re @@ PIVOT_COLUMN)) (rows pcrs_df).

(** Some compared field is not [eq] between the remote and the export row. *)
Definition differs (r re : row) : bool :=
  negb (forallb (λ c, cell_eq (r @@ c) (re @@ c)) COLUMNS_TO_CHECK).

(** The partial update that overwrites remote row [r] from export row [re]. *)
Definition update_of (r re : row) : request :=
  PATCH (r @@ "airtable_record_id") (to_dict COLUMNS_TO_CHECK re).

Definition planned_update (pcrs_df : DataFrame) (r : row) : option request :=
  match matching_row pcrs_df (r @@ PIVOT_COLUMN) with
  | Some re => if differs r re then Some (update_of r re) else None
  | None => None
  end.

Definition planned_updates (airtable_df pcrs_df : DataFrame) : list request :=
  omap (planned_update pcrs_df) (rows airtable_df).

(** What the diff pass needs of its two tables: the pivot column in both,
    with unique values; every compared field a column of both and not the
    pivot; the record identifier a column of the remote table. *)
Definition diff_ready (airtable_df pcrs_df : DataFrame) : Prop :=
  PIVOT_COLUMN ∈ columns airtable_df
  ∧ PIVOT_COLUMN ∈ columns pcrs_df
  ∧ unique_labels (column airtable_df PIVOT_COLUMN) = true
  ∧ unique_labels (column pcrs_df PIVOT_COLUMN) = true
  ∧ (∀ c, c ∈ COLUMNS_TO_CHECK →
       c ∈ columns airtable_df ∧ c ∈ columns pcrs_df ∧ c ≠ PIVOT_COLUMN)
  ∧ "airtable_record_id" ∈ columns airtable_df
  ∧ "airtable_record_id" ≠ PIVOT_COLUMN.

(** Remote rows whose pivot the export has too, and the export row joined
    under a label (the empty row stands in where there is none). *)
Definition common_rows (airtable_df pcrs_df : DataFrame) : list row :=
  filter (λ r, existsb (cell_same (r @@ PIVOT_COLUMN)) (column pcrs_df PIVOT_COLUMN))
    (rows airtable_df).

Definition joined (pcrs_df : DataFrame) (k : cell) : row :=
  default ∅ (matching_row pcrs_df k).

(** *** Invariants of the emitted trace

    [satisfies I Φ m]: from every history [h], [m] only appends to it, what
    it appends satisfies [I h], and a returned value satisfies [Φ]. *)
Definition satisfies {A} (I : trace → trace → Prop) (Φ : A → Prop) (m : M A) : Prop :=
  ∀ h, ∃ t, (m h).1 = h ++ t ∧ I h t ∧ ∀ a, (m h).2 = Ret a → Φ a.

(** Invariants that hold of nothing emitted and compose along the history. *)
Class Composable (I : trace → trace → Prop) : Prop := {
  composable_nil : ∀ h, I h [];
  composable_app : ∀ h t1 t2, I h t1 → I (h ++ t1) t2 → I h (t1 ++ t2)
}.

(** Every write request of the emitted trace satisfies [Q]. *)
Definition writes_all (Q : request → Prop) : trace → trace → Prop :=
  λ _ t, Forall Q (writes_of t).

(** [q] overwrites the compared fields of a remote row with the values of
    the export row that has the same pivot, and carries no other field. *)
Definition partial_update (airtable_df : DataFrame) (pcrs_df : pyval) (q : request)
  : Prop :=
  ∃ export r re fields,
    pcrs_df = PyFrame export
    ∧ r ∈ rows airtable_df ∧ re ∈ rows export
    ∧ cell_same (r @@ PIVOT_COLUMN) (re @@ PIVOT_COLUMN) = true
    ∧ q = PATCH (r @@ "airtable_record_id") fields
    ∧ dom fields = list_to_set COLUMNS_TO_CHECK
    ∧ ∀ c, c ∈ COLUMNS_TO_CHECK → fields !! c = Some (re @@ c).

(** *** Two runs side by side

    [agree R m1 m2]: from any two histories the two computations emit the
    same write requests and end alike, with results related by [R]. *)
Definition outcome_rel {A} (R : A → A → Prop) (o1 o2 : outcome A) : Prop :=
  match o1, o2 with
  | Ret a, Ret b => R a b
  | Raise e1, Raise e2 => e1 = e2
  | NonUniqueIndex, NonUniqueIndex => True
  | OutOfFuel, OutOfFuel => True
  | _, _ => False
  end.

Definition agree {A} (R : A → A → Prop) (m1 m2 : M A) : Prop :=
  ∀ h1 h2, ∃ t1 t2,
    (m1 h1).1 = h1 ++ t1 ∧ (m2 h2).1 = h2 ++ t2
    ∧ writes_of t1 = writes_of t2
    ∧ outcome_rel R (m1 h1).2 (m2 h2).2.

(** *** The page sequence of a run

    The history and the offset with which the loop of [get_airtable_data]
    enters its [n]-th round when started from history [h0], the page the
    server answers in that round, and the records of a page
    ([response_data.get("records", [])]). *)
Fixpoint loop_state (W : World) (h0 : trace) (n : nat) : trace * option string :=
  match n with
  | O => (h0, None)
  | S n' =>
      let s := loop_state W h0 n' in
      let params := if truthy s.2 then s.2 else None in
      (s.1 ++ [Request (GET_table params)], page_offset (table_api W s.1 params))
  end.

Definition nth_page (W : World) (h0 : trace) (n : nat) : page :=
  let s := loop_state W h0 n in
  table_api W s.1 (if truthy s.2 then s.2 else None).

Definition page_rows (p : page) : list api_record := default [] (page_records p).

Definition last_page (W : World) (h0 : trace) (n : nat) : bool :=
  negb (truthy (page_offset (nth_page W h0 n))).

(** *** Refused payloads and undecodable answers *)

(** The requests that go out when [qs] are attempted in order: those before
    the first one that requests refuses to encode. *)
Fixpoint sent (qs : list request) : list request :=
  match qs with
  | [] => []
  | q :: qs' => if encodable q then q :: sent qs' else []
  end.

(** How a loop that attempts [qs] ends. *)
Definition refusal (qs : list request) : outcome unit :=
  match find (λ q, negb (encodable q)) qs with
  | Some q => Raise (InvalidJSONError q)
  | None => Ret tt
  end.

(** The server answers every write that it does not accept (status other
    than 200) with a JSON body. *)
Definition json_errors (W : World) : Prop :=
  ∀ h q, status_code (write_api W h q) ≠ 200 → is_Some (json (write_api W h q)).

(** No cell of the pivot column or of a compared column is empty. *)
Definition filled (df : DataFrame) : Prop :=
  ∀ r c, r ∈ rows df → c ∈ PIVOT_COLUMN :: COLUMNS_TO_CHECK → isnull (r @@ c) = false.

(** *** Further vocabulary *)

(** [q] creates one record from an export row whose pivot the remote table
    lacks. *)
Definition creates_missing (airtable_df : DataFrame) (pcrs_df : pyval) (q : request)
  : Prop :=
  ∃ export r,
    pcrs_df = PyFrame export ∧ r ∈ rows export
    ∧ is_missing airtable_df r = true ∧ q = POST [new_record r].

(** What the script prints right after a request that [W] answers: the
    success message for status 200, the error message for any other and,
    for a create, the decoded body when there is one. *)
Definition verdict (W : World) (h : trace) (q : request) : trace :=
  match q with
  | PATCH id _ =>
      let s := status_code (write_api W h q) in
      [Print (if bool_decide (s = 200) then MUpdateOk id else MUpdateError id s)]
  | POST _ =>
      let r := write_api W h q in
      if bool_decide (status_code r = 200) then [Print MCreateOk]
      else Print (MCreateError (status_code r))
             :: match json r with
                | Some body => [Print (MResponseJson body)]
                | None => []
                end
  | _ => []
  end.

(** What a loop adds to the history [h] when the requests [qs] go out one
    after the other, each followed by its verdict. *)
Fixpoint transcript (W : World) (h : trace) (qs : list request) : trace :=
  match qs with
  | [] => []
  | q :: qs' =>
      let t := Request q :: verdict W h q in
      t ++ transcript W (h ++ t) qs'
  end.

Fixpoint verdicts_follow (W : World) (h t : trace) : Prop :=
  match t with
  | [] => True
  | e :: t' =>
      match e with
      | Request q => take (length (verdict W h q)) t' = verdict W h q
      | Print _ => True
      end
      ∧ verdicts_follow W (h ++ [e]) t'
  end.

(** The [i]-th listing request of a run: the first carries no offset, the
    next ones the token of the page before. *)
Definition listing_request (W : World) (h0 : trace) (i : nat) : event :=
  Request (GET_table match i with
                     | O => None
                     | S j => page_offset (nth_page W h0 j)
                     end).

(** The rows of the remote table that the report pass counts. *)
Definition deleted_rows (airtable_df pcrs_df : DataFrame) : list row :=
  filter (is_missing pcrs_df) (rows airtable_df).

(** ** Sample data

    The tables of the scenarios of the specification (pivot field "pivot",
    compared field "status") and small servers to run the script against. *)

Definition airtable_record (id : string) (fields : list (string * cell)) : api_record :=
  mkRecord (Some (list_to_map fields)) (Some id).

(** The remote table as [get_airtable_data] builds it from listed records. *)
Definition remote_table (records : list api_record) : DataFrame :=
  DataFrame_of_dicts (record_data <$> records).

(** A parsed export with header [pivot,status]. *)
Definition export_table (lines : list (list (string * cell))) : DataFrame :=
  mkDF {["pivot"; "status"]} (list_to_map <$> lines).

Definition ok_response : response := mkResponse 200 "" None.

(** A server that lists [records] in one page, serves an export that parses
    to [export] with status [export_status], and answers every write with
    [write_status]. *)
Definition sample_world (records : list api_record) (export_status : Z)
    (export : DataFrame) (write_status : Z) : World :=
  mkWorld (λ _ _, mkPage (Some records) None)
          (λ _, mkResponse export_status "pivot,status" None)
          (λ _ _, mkResponse write_status "{}" (Some "{}"))
          (λ _, export).

(** A server behind a gateway that answers every write with 502 and an HTML
    page. *)
Definition html_error_world (records : list api_record) (export : DataFrame) : World :=
  mkWorld (λ _ _, mkPage (Some records) None)
          (λ _, mkResponse 200 "pivot,status" None)
          (λ _ _, mkResponse 502 "<html>502 Bad Gateway</html>" None)
          (λ _, export).

(** A server that lists two pages: the first with the token "itr2". *)
Definition two_page_world (page1 page2 : list api_record) : World :=
  mkWorld (λ _ params,
             match params with
             | None => mkPage (Some page1) (Some "itr2")
             | Some _ => mkPage (Some page2) None
             end)
          (λ _, ok_response) (λ _ _, ok_response) (λ _, export_table []).

(** A server whose every page carries a token. *)
Definition endless_world : World :=
  mkWorld (λ _ _, mkPage (Some []) (Some "again"))
          (λ _, ok_response) (λ _ _, ok_response) (λ _, export_table []).

(** * Properties *)

(** ** Labels *)

Lemma py_eq_sym x y : py_eq x y = py_eq y x.
Proof.
  destruct x, y; simpl; try done; apply bool_decide_ext; split; congruence.
Qed.

Lemma cell_same_sym x y : cell_same x y = cell_same y x.
Proof.
  unfold cell_same. rewrite (py_eq_sym x y).
  by destruct x, y.
Qed.

Lemma cell_same_refl x : cell_same x x = true.
Proof.
  destruct x; unfold cell_same; simpl; try done; by rewrite bool_decide_eq_true_2.
Qed.

Lemma cell_same_trans x y z :
  cell_same x y = true → cell_same y z = true → cell_same x z = true.
Proof.
  unfold cell_same.
  destruct x, y, z; simpl; try done;
    rewrite ?bool_decide_eq_true; try congruence.
  intros H1 H2. apply Z.b2z_inj. congruence.
Qed.

(** Present cells that are Leibniz-equal are equal for [eq]. *)
Lemma cell_eq_refl x : isnull x = false → cell_eq x x = true.
Proof.
  destruct x; unfold cell_eq; simpl; try done; intros _; by rewrite bool_decide_eq_true_2.
Qed.

Lemma cell_eq_null_l x y : isnull x = true → cell_eq x y = false.
Proof. unfold cell_eq. by intros ->. Qed.

Lemma existsb_same x (l : list cell) :
  existsb (cell_same x) l = true ↔ ∃ y, y ∈ l ∧ cell_same x y = true.
Proof.
  rewrite existsb_exists. split; intros (y & Hy & Hs); exists y;
    by rewrite list_elem_of_In in *.
Qed.

(** In a list with unique labels a label selects its own element only. *)
Lemma unique_labels_filter {A} (f : A → cell) (l : list A) (x : A) :
  unique_labels (f <$> l) = true → x ∈ l →
  filter (λ y, cell_same (f y) (f x)) l = [x].
Proof.
  induction l as [|y l IH]; intros Hu Hx; [by apply elem_of_nil in Hx|].
  rewrite fmap_cons in Hu. simpl in Hu.
  apply andb_true_iff in Hu as [Hy Hu]. apply negb_true_iff in Hy.
  assert (Hfresh : ∀ z, z ∈ l → cell_same (f y) (f z) = false).
  { intros z Hz. destruct (cell_same (f y) (f z)) eqn:E; [|done].
    rewrite <- Hy. symmetry. apply existsb_same. exists (f z).
    split; [|done]. by apply list_elem_of_fmap_2. }
  apply elem_of_cons in Hx as [->|Hx].
  - rewrite filter_cons_True by (by rewrite cell_same_refl). f_equal.
    destruct (filter _ l) as [|z l'] eqn:E; [done|].
    assert (Hz : z ∈ filter (λ y0, cell_same (f y0) (f y)) l) by (rewrite E; left).
    apply list_elem_of_filter in Hz as [Hs Hz].
    rewrite cell_same_sym, (Hfresh z Hz) in Hs. done.
  - rewrite filter_cons_False by (rewrite (Hfresh x Hx); intros []). by apply IH.
Qed.

Lemma unique_labels_inj {A} (f : A → cell) (l : list A) (x y : A) :
  unique_labels (f <$> l) = true → x ∈ l → y ∈ l →
  cell_same (f y) (f x) = true → y = x.
Proof.
  intros Hu Hx Hy Hs.
  assert (H : y ∈ filter (λ z, cell_same (f z) (f x)) l).
  { apply list_elem_of_filter. split; [by rewrite Hs|done]. }
  rewrite (unique_labels_filter f l x Hu Hx) in H. by apply list_elem_of_singleton in H.
Qed.

Lemma unique_labels_sublist {A} (f : A → cell) (P : A → Prop) `{∀ x, Decision (P x)}
    (l : list A) :
  unique_labels (f <$> l) = true → unique_labels (f <$> filter P l) = true.
Proof.
  induction l as [|y l IH]; [done|]. rewrite fmap_cons. simpl.
  intros [Hy Hu]%andb_true_iff. rewrite filter_cons. destruct (decide (P y)); [|by apply IH].
  rewrite fmap_cons. simpl. rewrite (IH Hu), andb_true_r.
  apply negb_true_iff in Hy. apply negb_true_iff.
  destruct (existsb _ (f <$> filter P l)) eqn:E; [|done].
  apply existsb_same in E as (z & Hz & Hs).
  apply list_elem_of_fmap in Hz as (w & -> & Hw%list_elem_of_filter).
  rewrite <- Hy. symmetry. apply existsb_same. exists (f w).
  split; [apply list_elem_of_fmap_2; tauto|done].
Qed.

(** ** Dicts *)

Lemma to_dict_lookup (cols : list string) (r : row) (c : string) :
  to_dict cols r !! c = if decide (c ∈ cols) then Some (r @@ c) else None.
Proof.
  unfold to_dict. induction cols as [|d cols IH]; [done|].
  rewrite fmap_cons, list_to_map_cons, lookup_insert.
  destruct (decide (d = c)) as [->|Hne].
  - by rewrite decide_True by left.
  - rewrite IH. destruct (decide (c ∈ cols)).
    + by rewrite decide_True by (by right).
    + rewrite decide_False; [done|]. intros [?|?]%elem_of_cons; congruence.
Qed.

Lemma to_dict_dom (cols : list string) (r : row) :
  dom (to_dict cols r) = list_to_set cols.
Proof.
  apply set_eq. intros c. rewrite elem_of_dom, to_dict_lookup, elem_of_list_to_set.
  destruct (decide (c ∈ cols)); split; done.
Qed.

(** ** Lists *)

Lemma find_fmap {A B} (p : B → bool) (f : A → B) (l : list A) :
  find p (f <$> l) = f <$> find (λ x, p (f x)) l.
Proof.
  induction l as [|x l IH]; [done|]. rewrite fmap_cons. simpl.
  by destruct (p (f x)).
Qed.

Lemma find_filter {A} (p : A → bool) (Q : A → Prop) `{∀ x, Decision (Q x)} (l : list A) :
  (∀ x, x ∈ l → p x = true → Q x) → find p (filter Q l) = find p l.
Proof.
  induction l as [|x l IH]; intros Himp; [done|].
  assert (IH' : find p (filter Q l) = find p l).
  { apply IH. intros y Hy. apply Himp. by right. }
  rewrite filter_cons. simpl. destruct (p x) eqn:E.
  - rewrite decide_True by (apply Himp; [left|done]). simpl. by rewrite E.
  - destruct (decide (Q x)); [simpl; by rewrite E|done].
Qed.

Lemma find_unique {A} (f : A → cell) (l : list A) (x : A) :
  unique_labels (f <$> l) = true → x ∈ l →
  find (λ y, cell_same (f x) (f y)) l = Some x.
Proof.
  intros Hu Hx.
  destruct (find _ l) as [y|] eqn:E.
  - apply find_some in E as [Hy Hs]. apply list_elem_of_In in Hy.
    f_equal. apply (unique_labels_inj f l x y Hu Hx Hy). by rewrite cell_same_sym.
  - apply list_elem_of_In in Hx. apply (find_none _ _ E) in Hx.
    by rewrite cell_same_refl in Hx.
Qed.

Lemma omap_fmap_ext {A B} (f : A → option B) (g : A → B) (l : list A) :
  (∀ x, x ∈ l → f x = Some (g x)) → omap f l = g <$> l.
Proof.
  induction l as [|x l IH]; intros Hf; [done|].
  simpl. rewrite (Hf x) by left. simpl. f_equal.
  apply IH. intros y Hy. apply Hf. by right.
Qed.

Lemma zip_fmap_diag {A B C} (f : A → B) (g : A → C) (l : list A) :
  zip (f <$> l) (g <$> l) = (λ x, (f x, g x)) <$> l.
Proof. induction l as [|x l IH]; [done|]. rewrite !fmap_cons. simpl. f_equal. apply IH. Qed.

Lemma mask_rows_fmap2 {A B} (f : A → bool) (g : A → B) (l : list A) :
  mask_rows (f <$> l) (g <$> l) = g <$> filter (λ x, f x) l.
Proof.
  induction l as [|x l IH]; [done|].
  rewrite !fmap_cons, filter_cons. simpl. rewrite IH.
  destruct (f x); by simpl.
Qed.

Lemma filter_all {A} (P : A → Prop) `{∀ x, Decision (P x)} (l : list A) :
  (∀ x, x ∈ l → P x) → filter P l = l.
Proof.
  induction l as [|x l IH]; intros HP; [done|].
  rewrite filter_cons_True by (apply HP; left).
  f_equal. apply IH. intros y Hy. apply HP. by right.
Qed.

Lemma filter_ext_in {A} (P Q : A → Prop) `{∀ x, Decision (P x)} `{∀ x, Decision (Q x)}
    (l : list A) :
  (∀ x, x ∈ l → P x ↔ Q x) → filter P l = filter Q l.
Proof.
  induction l as [|x l IH]; intros HPQ; [done|].
  rewrite !filter_cons, IH by (intros y Hy; apply HPQ; by right).
  destruct (decide (P x)) as [HP|HP], (decide (Q x)) as [HQ|HQ]; try done;
    exfalso; apply (HPQ x) in HP || apply HP, (HPQ x); done || left.
Qed.

Lemma forallb_ext_in {A} (f g : A → bool) (l : list A) :
  (∀ x, x ∈ l → f x = g x) → forallb f l = forallb g l.
Proof.
  induction l as [|x l IH]; intros Hfg; [done|].
  simpl. rewrite (Hfg x) by left. rewrite IH; [done|].
  intros y Hy. apply Hfg. by right.
Qed.

Lemma cell_at_delete_ne (r : row) (c d : string) : c ≠ d → delete c r @@ d = r @@ d.
Proof. intros Hne. unfold cell_at. by rewrite lookup_delete_ne. Qed.

Lemma to_dict_ext (cols : list string) (r r' : row) :
  (∀ c, c ∈ cols → r @@ c = r' @@ c) → to_dict cols r = to_dict cols r'.
Proof.
  intros Heq. apply map_eq. intros c. rewrite !to_dict_lookup.
  destruct (decide (c ∈ cols)); [|done]. by rewrite Heq.
Qed.

(** ** Masks *)

Lemma mask_rows_fmap {A} (f : A → bool) (l : list A) :
  mask_rows (f <$> l) l = filter (λ x, f x) l.
Proof.
  induction l as [|x l IH]; [done|].
  rewrite fmap_cons, filter_cons. simpl. rewrite IH.
  destruct (f x); by simpl.
Qed.

(** ** Traces *)


Lemma writes_of_app t1 t2 : writes_of (t1 ++ t2) = writes_of t1 ++ writes_of t2.
Proof. apply omap_app. Qed.

Lemma emitted_eq {A} (m : M A) h t o : m h = (h ++ t, o) → emitted m h = t.
Proof. unfold emitted. intros ->. simpl. by rewrite drop_app_length. Qed.

Lemma result_eq {A} (m : M A) h h' o : m h = (h', o) → result m h = o.
Proof. unfold result. by intros ->. Qed.

Lemma bind_ret_eq {A B} (m : M A) (k : A → M B) h h' a :
  m h = (h', Ret a) → (m ≫= k) h = k a h'.
Proof. unfold mbind, M_bind. by intros ->. Qed.

Lemma raise_bind_eq {A B} (m : M A) (k : A → M B) h h' e :
  m h = (h', Raise e) → (m ≫= k) h = (h', Raise e).
Proof. unfold mbind, M_bind. by intros ->. Qed.

Lemma print_eq m h : print m h = (h ++ [Print m], Ret tt).
Proof. done. Qed.

Implicit Type W : World.

Lemma check_columns_ok (have : gset string) (cols : list string) :
  (∀ c, c ∈ cols → c ∈ have) → check_columns have cols = mret tt.
Proof.
  intros Hall. unfold check_columns.
  destruct (find _ cols) as [c|] eqn:E; [|done].
  apply find_some in E as [Hin Hc]. apply list_elem_of_In, Hall in Hin.
  by rewrite bool_decide_eq_true_2 in Hc.
Qed.

Lemma getitem_ok (df : DataFrame) c h :
  c ∈ columns df → getitem df c h = (h, Ret (column df c)).
Proof. intros Hc. unfold getitem. by rewrite bool_decide_eq_true_2. Qed.

Lemma frame_of_ok (df : DataFrame) h : frame_of (PyFrame df) h = (h, Ret df).
Proof. done. Qed.


(** *** Payloads that requests refuses *)

Lemma encodable_to_dict (cols : list string) (r : row) :
  encodable_dict (to_dict cols r) = true ↔ ∀ c, c ∈ cols → isnull (r @@ c) = false.
Proof.
  unfold encodable_dict. rewrite bool_decide_eq_true. unfold map_Forall. split.
  - intros Hall c Hc. apply (Hall c). by rewrite to_dict_lookup, decide_True.
  - intros Hall c v. rewrite to_dict_lookup. case_decide; [|done].
    intros [= <-]. by apply Hall.
Qed.

Lemma encodable_new_record (r : row) :
  encodable (POST [new_record r]) = true
  ↔ ∀ c, c ∈ PIVOT_COLUMN :: COLUMNS_TO_CHECK → isnull (r @@ c) = false.
Proof.
  simpl. rewrite andb_true_r. unfold encodable_dict, new_record.
  rewrite bool_decide_eq_true. unfold map_Forall. split.
  - intros Hall c Hc. apply (Hall c).
    destruct (decide (PIVOT_COLUMN = c)) as [->|Hne]; [by rewrite lookup_insert_eq|].
    rewrite lookup_insert_ne by done. rewrite to_dict_lookup.
    apply elem_of_cons in Hc as [?|Hc]; [congruence|]. by rewrite decide_True.
  - intros Hall c v.
    destruct (decide (PIVOT_COLUMN = c)) as [->|Hne].
    + rewrite lookup_insert_eq. intros [= <-]. apply Hall. left.
    + rewrite lookup_insert_ne by done. rewrite to_dict_lookup. case_decide; [|done].
      intros [= <-]. apply Hall. by right.
Qed.

Lemma http_write_sent W (q : request) h :
  encodable q = true → http_write W q h = (h ++ [Request q], Ret (write_api W h q)).
Proof. unfold http_write. by intros ->. Qed.

Lemma http_write_refused W (q : request) h :
  encodable q = false → http_write W q h = (h, Raise (InvalidJSONError q)).
Proof. unfold http_write. by intros ->. Qed.

Lemma sent_all (qs : list request) :
  (∀ q, q ∈ qs → encodable q = true) → sent qs = qs ∧ refusal qs = Ret tt.
Proof.
  unfold refusal. induction qs as [|q qs IH]; [done|]. intros Hall. simpl.
  rewrite (Hall q) by left. simpl.
  destruct IH as [-> IH]; [intros q' Hq'; apply Hall; by right|]. done.
Qed.

Lemma sent_prefix (qs : list request) : sent qs `prefix_of` qs.
Proof.
  induction qs as [|q qs IH]; [done|]. simpl.
  destruct (encodable q); [by apply prefix_cons|apply prefix_nil].
Qed.


Lemma refusal_ret (qs : list request) : refusal qs = Ret tt → sent qs = qs.
Proof.
  unfold refusal. induction qs as [|q qs IH]; [done|]. simpl.
  destruct (encodable q); simpl; [|done]. intros Hq. by rewrite IH.
Qed.


(** *** The loops *)

Lemma bind_stop_eq {A} (m : M A) (k : A → M A) h h' (o : outcome A) :
  m h = (h', o) → (∀ a, o ≠ Ret a) → (m ≫= k) h = (h', o).
Proof. unfold mbind, M_bind. intros -> Ho. destruct o; [by destruct (Ho a)|done..]. Qed.

(** A loop whose body sends one request per item, or stops: the requests
    sent are a prefix of the planned ones, and all of them when the loop
    runs to its end. *)
Lemma for_each_prefix {A} (f : A → request) (body : A → M unit) (l : list A) h :
  (∀ x h, x ∈ l →
     ∃ t o, body x h = (h ++ t, o)
       ∧ ((o = Ret tt ∧ writes_of t = [f x])
          ∨ ((∀ a, o ≠ Ret a) ∧ writes_of t `prefix_of` [f x]))) →
  ∃ t o, for_each l body h = (h ++ t, o)
    ∧ writes_of t `prefix_of` (f <$> l)
    ∧ (o = Ret tt → writes_of t = f <$> l).
Proof.
  revert h. induction l as [|x l IH]; intros h Hbody.
  - exists [], (Ret tt). by rewrite app_nil_r.
  - destruct (Hbody x h) as (t1 & o1 & E1 & [[-> Hw1]|[Hstop Hw1]]); [left|..].
    + destruct (IH (h ++ t1)) as (t2 & o2 & E2 & Hpre & Hall).
      { intros y h' Hy. apply Hbody. by right. }
      exists (t1 ++ t2), o2. split_and!.
      * simpl. rewrite (bind_ret_eq _ _ _ _ _ E1), E2. by rewrite app_assoc.
      * rewrite writes_of_app, Hw1, fmap_cons. by apply prefix_cons.
      * intros Ho. by rewrite writes_of_app, Hw1, Hall.
    + exists t1, o1. split_and!.
      * simpl. by rewrite (bind_stop_eq _ _ _ _ _ E1 Hstop).
      * rewrite fmap_cons. etrans; [exact Hw1|]. apply prefix_cons, prefix_nil.
      * intros ->. by destruct (Hstop tt).
Qed.

Lemma create_record_step W (pcrs_df : DataFrame) (r : row) h :
  ∃ t o, create_record W pcrs_df r h = (h ++ t, o)
    ∧ ((o = Ret tt ∧ writes_of t = [POST [new_record r]])
       ∨ ((∀ a, o ≠ Ret a) ∧ writes_of t `prefix_of` [POST [new_record r]])).
Proof.
  unfold create_record, check_columns.
  destruct (find _ COLUMNS_TO_CHECK) as [c|].
  { exists [], (Raise (KeyError (Str c))). rewrite app_nil_r.
    split; [done|]. right. split; [done|apply prefix_nil]. }
  fold (new_record r). unfold mbind, M_bind, mret, M_ret, print, emit, http_write. simpl.
  destruct (encodable_dict (new_record r)); simpl.
  - destruct (bool_decide _); simpl; [|destruct (json _)]; rewrite <- ?app_assoc; simpl.
    + eexists _, _. split; [reflexivity|]. by left.
    + eexists _, _. split; [reflexivity|]. by left.
    + eexists _, _. split; [reflexivity|]. right. by split.
  - eexists _, _. split; [reflexivity|]. right. split; [done|apply prefix_nil].
Qed.

Lemma create_record_run W (pcrs_df : DataFrame) (r : row) h :
  (∀ c, c ∈ COLUMNS_TO_CHECK → c ∈ columns pcrs_df) →
  encodable (POST [new_record r]) = true →
  json_errors W →
  ∃ t, create_record W pcrs_df r h = (h ++ t, Ret tt)
       ∧ writes_of t = [POST [new_record r]].
Proof.
  intros Hcols Henc Hjson. unfold create_record. rewrite (check_columns_ok _ _ Hcols).
  fold (new_record r).
  unfold mbind, M_bind, mret, M_ret, print, emit. simpl.
  rewrite (http_write_sent _ _ _ Henc).
  case_bool_decide as Hs; simpl.
  - rewrite <- !app_assoc. eexists. by split.
  - destruct (Hjson _ _ Hs) as [body ->]. simpl.
    rewrite <- !app_assoc. eexists. by split.
Qed.

Lemma create_loop_run W (pcrs_df : DataFrame) (l : list row) h :
  (∀ c, c ∈ COLUMNS_TO_CHECK → c ∈ columns pcrs_df) →
  (∀ r, r ∈ l → encodable (POST [new_record r]) = true) →
  json_errors W →
  ∃ t, for_each l (create_record W pcrs_df) h = (h ++ t, Ret tt)
       ∧ writes_of t = (λ r, POST [new_record r]) <$> l.
Proof.
  intros Hcols Henc Hjson. revert h. induction l as [|r l IH]; intros h.
  - exists []. by rewrite app_nil_r.
  - destruct (create_record_run W pcrs_df r h Hcols) as (t1 & E1 & Hw1);
      [apply Henc; left|done|].
    destruct IH with (h := h ++ t1) as (t2 & E2 & Hw2).
    { intros r' Hr'. apply Henc. by right. }
    exists (t1 ++ t2). split.
    + simpl. rewrite (bind_ret_eq _ _ _ _ _ E1), E2. by rewrite app_assoc.
    + by rewrite writes_of_app, Hw1, Hw2.
Qed.

(** The insert pass up to its loop, and what the loop can send. *)
Lemma synchronize_missing_records_trace W (airtable_df pcrs_df : DataFrame) h :
  PIVOT_COLUMN ∈ columns airtable_df →
  PIVOT_COLUMN ∈ columns pcrs_df →
  let missing := filter (is_missing airtable_df) (rows pcrs_df) in
  ∃ t o, synchronize_missing_records W airtable_df (PyFrame pcrs_df) h
         = (h ++ [Print MSyncMissing; Print (MFoundMissing (length missing))] ++ t, o)
    ∧ writes_of t `prefix_of` ((λ r, POST [new_record r]) <$> missing)
    ∧ (o = Ret tt → writes_of t = (λ r, POST [new_record r]) <$> missing).
Proof.
  intros Ha Hp missing. unfold synchronize_missing_records.
  rewrite (bind_ret_eq _ _ _ _ _ (print_eq _ _)).
  rewrite (bind_ret_eq _ _ _ _ _ (frame_of_ok _ _)).
  rewrite (bind_ret_eq _ _ _ _ _ (getitem_ok _ _ _ Hp)).
  rewrite (bind_ret_eq _ _ _ _ _ (getitem_ok _ _ _ Ha)).
  rewrite (bind_ret_eq _ _ _ _ _ (print_eq _ _)).
  unfold mask_df, invert, isin, column. simpl.
  rewrite <- !list_fmap_compose.
  rewrite (mask_rows_fmap (λ r, is_missing airtable_df r)).
  fold missing.
  edestruct (for_each_prefix (λ r, POST [new_record r]) (create_record W pcrs_df) missing)
    as (t & o & -> & Hpre & Hall).
  { intros r h' _. apply create_record_step. }
  rewrite <- !app_assoc. by exists t, o.
Qed.

Lemma synchronize_missing_records_run W (airtable_df pcrs_df : DataFrame) h :
  PIVOT_COLUMN ∈ columns airtable_df →
  PIVOT_COLUMN ∈ columns pcrs_df →
  (∀ c, c ∈ COLUMNS_TO_CHECK → c ∈ columns pcrs_df) →
  (∀ r, r ∈ rows pcrs_df → is_missing airtable_df r = true →
     encodable (POST [new_record r]) = true) →
  json_errors W →
  ∃ t, synchronize_missing_records W airtable_df (PyFrame pcrs_df) h = (h ++ t, Ret tt)
       ∧ writes_of t =
           (λ r, POST [new_record r]) <$> filter (is_missing airtable_df) (rows pcrs_df).
Proof.
  intros Ha Hp Hcols Henc Hjson. unfold synchronize_missing_records.
  rewrite (bind_ret_eq _ _ _ _ _ (print_eq _ _)).
  rewrite (bind_ret_eq _ _ _ _ _ (frame_of_ok _ _)).
  rewrite (bind_ret_eq _ _ _ _ _ (getitem_ok _ _ _ Hp)).
  rewrite (bind_ret_eq _ _ _ _ _ (getitem_ok _ _ _ Ha)).
  rewrite (bind_ret_eq _ _ _ _ _ (print_eq _ _)).
  unfold mask_df, invert, isin, column. simpl.
  rewrite <- !list_fmap_compose.
  rewrite (mask_rows_fmap (λ r, is_missing airtable_df r)).
  edestruct (create_loop_run W pcrs_df) as (t & -> & Hw); [done| |done|].
  { intros r [Hm Hr]%list_elem_of_filter. apply Henc; [done|]. by destruct (is_missing _ r). }
  rewrite <- !app_assoc. eexists. split; [reflexivity|].
  by rewrite !writes_of_app, Hw.
Qed.

Lemma creates_for_new_record (v : cell) (r : row) :
  creates_for v (POST [new_record r]) = cell_same (r @@ PIVOT_COLUMN) v.
Proof.
  unfold creates_for, new_record, cell_at at 1. simpl.
  by rewrite lookup_insert_eq, orb_false_r.
Qed.

Lemma creates_for_filter (v : cell) (airtable_df : DataFrame) (l : list row) :
  filter (creates_for v) ((λ r, POST [new_record r]) <$> filter (is_missing airtable_df) l)
  = (λ r, POST [new_record r]) <$>
      filter (is_missing airtable_df) (filter (λ y, cell_same (y @@ PIVOT_COLUMN) v) l).
Proof.
  induction l as [|y l IH]; [done|].
  rewrite (filter_cons (is_missing airtable_df)), (filter_cons (λ y, cell_same _ v)).
  destruct (decide (is_missing airtable_df y)) as [Hy|Hy];
    destruct (decide (cell_same (y @@ PIVOT_COLUMN) v)) as [Hs|Hs].
  - rewrite fmap_cons, !filter_cons, creates_for_new_record.
    rewrite !decide_True by done. by rewrite fmap_cons, IH.
  - rewrite fmap_cons, filter_cons, creates_for_new_record.
    by rewrite decide_False by done.
  - by rewrite filter_cons, decide_False by done.
  - done.
Qed.

(** What holds of the create requests when the insert pass meets nothing
    that stops it: the remote frame has the pivot column (some record is
    listed), the export has the compared columns and no empty cell in them
    or in the pivot, and the server answers its refusals in JSON.  A pivot
    value that occurs once in the export and not in the remote table then
    gets exactly one create request, and the record created holds exactly
    the pivot field and the compared fields, with the export row's values. *)
Theorem missing_pivot_created_once W (airtable_df pcrs_df : DataFrame) (r : row) (h : trace) :
  PIVOT_COLUMN ∈ columns airtable_df →
  PIVOT_COLUMN ∈ columns pcrs_df →
  (∀ c, c ∈ COLUMNS_TO_CHECK → c ∈ columns pcrs_df) →
  filled pcrs_df →
  json_errors W →
  unique_labels (column pcrs_df PIVOT_COLUMN) = true →
  r ∈ rows pcrs_df →
  existsb (cell_same (r @@ PIVOT_COLUMN)) (column airtable_df PIVOT_COLUMN) = false →
  let run := synchronize_missing_records W airtable_df (PyFrame pcrs_df) in
  result run h = Ret tt
  ∧ filter (creates_for (r @@ PIVOT_COLUMN)) (writes_of (emitted run h))
    = [POST [new_record r]]
  ∧ dom (new_record r) = {[PIVOT_COLUMN]} ∪ list_to_set COLUMNS_TO_CHECK
  ∧ (∀ c, c ∈ PIVOT_COLUMN :: COLUMNS_TO_CHECK → new_record r !! c = Some (r @@ c)).
Proof.
  intros Ha Hp Hcols Hfilled Hjson Hu Hr Hmiss run.
  destruct (synchronize_missing_records_run W airtable_df pcrs_df h Ha Hp Hcols)
    as (t & E & Hw); [|done|].
  { intros r' Hr' _. apply encodable_new_record. intros c Hc. by apply Hfilled. }
  subst run. rewrite (result_eq _ _ _ _ E), (emitted_eq _ _ _ _ E), Hw.
  repeat split.
  - transitivity ((λ r, POST [new_record r]) <$>
      filter (is_missing airtable_df)
        (filter (λ y, cell_same (y @@ PIVOT_COLUMN) (r @@ PIVOT_COLUMN)) (rows pcrs_df))).
    + apply creates_for_filter.
    + rewrite (unique_labels_filter (λ y, y @@ PIVOT_COLUMN) (rows pcrs_df) r Hu Hr).
      rewrite filter_cons_True; [done|].
      unfold is_missing. by rewrite Hmiss.
  - unfold new_record. by rewrite dom_insert_L, to_dict_dom.
  - intros c Hc. unfold new_record.
    destruct (decide (PIVOT_COLUMN = c)) as [->|Hne]; [by rewrite lookup_insert_eq|].
    rewrite lookup_insert_ne by done. rewrite to_dict_lookup.
    apply elem_of_cons in Hc as [?|Hc]; [congruence|]. by rewrite decide_True.
Qed.

(** ** The diff pass *)

Lemma common_matching (pcrs_df : DataFrame) (k : cell) :
  existsb (cell_same k) (column pcrs_df PIVOT_COLUMN) = true →
  ∃ re, matching_row pcrs_df k = Some re.
Proof.
  intros (v & Hv & Hs)%existsb_same.
  apply list_elem_of_fmap in Hv as (re & -> & Hre).
  unfold matching_row. destruct (find _ _) as [re'|] eqn:E; [by eexists|].
  apply list_elem_of_In in Hre. apply (find_none _ _ E) in Hre. congruence.
Qed.

Lemma matching_row_spec (pcrs_df : DataFrame) (k : cell) (re : row) :
  matching_row pcrs_df k = Some re →
  re ∈ rows pcrs_df ∧ cell_same k (re @@ PIVOT_COLUMN) = true.
Proof. intros [Hin Hs]%find_some. by apply list_elem_of_In in Hin. Qed.

Lemma matching_row_unique (pcrs_df : DataFrame) (k : cell) (re : row) :
  unique_labels (column pcrs_df PIVOT_COLUMN) = true →
  re ∈ rows pcrs_df →
  cell_same k (re @@ PIVOT_COLUMN) = true →
  matching_row pcrs_df k = Some re.
Proof.
  intros Hu Hre Hs.
  destruct (common_matching pcrs_df k) as [re' E].
  { apply existsb_same. exists (re @@ PIVOT_COLUMN). split; [|done].
    by apply (list_elem_of_fmap_2 (λ r, r @@ PIVOT_COLUMN)). }
  rewrite E. f_equal. apply matching_row_spec in E as [Hre' Hs'].
  apply (unique_labels_inj (λ r, r @@ PIVOT_COLUMN) (rows pcrs_df) re re' Hu Hre Hre').
  rewrite cell_same_sym in Hs'. by apply (cell_same_trans _ _ _ Hs').
Qed.

Lemma refusal_cons (q : request) (qs : list request) :
  refusal (q :: qs) = if encodable q then refusal qs else Raise (InvalidJSONError q).
Proof. unfold refusal. simpl. by destruct (encodable q). Qed.

Lemma update_record_run W (A E : IndexedFrame) (x : cell * row) (re : row) h :
  "airtable_record_id" ∈ icolumns A →
  loc_row E x.1 = Some re →
  let q := PATCH (x.2 @@ "airtable_record_id") (to_dict COLUMNS_TO_CHECK re) in
  ∃ t, update_record W A E x h
       = (h ++ t, if encodable q then Ret tt else Raise (InvalidJSONError q))
       ∧ writes_of t = (if encodable q then [q] else [])
       ∧ t = if encodable q then Request q :: verdict W h q else [].
Proof.
  intros Hid Hloc q. destruct x as [k r]. unfold update_record.
  rewrite check_columns_ok by (by intros c ->%list_elem_of_singleton).
  simpl in Hloc. unfold mbind at 1, M_bind at 1, mret, M_ret. simpl.
  rewrite Hloc. fold q. change (encodable_dict _) with (encodable q).
  destruct (encodable q) eqn:Henc.
  - rewrite (bind_ret_eq _ _ _ _ _ (http_write_sent W q h Henc)).
    exists (Request q :: verdict W h q). unfold print, emit, verdict. subst q. cbn zeta.
    case_bool_decide; cbn [negb]; by rewrite <- app_assoc.
  - rewrite (raise_bind_eq _ _ _ _ _ (http_write_refused W q h Henc)).
    exists []. by rewrite app_nil_r.
Qed.

Lemma update_loop_run W (A E : IndexedFrame) (m : cell * row → row) (l : list (cell * row)) h :
  "airtable_record_id" ∈ icolumns A →
  (∀ x, x ∈ l → loc_row E x.1 = Some (m x)) →
  let f := λ x : cell * row,
    PATCH (x.2 @@ "airtable_record_id") (to_dict COLUMNS_TO_CHECK (m x)) in
  ∃ t, for_each l (update_record W A E) h = (h ++ t, refusal (f <$> l))
       ∧ writes_of t = sent (f <$> l)
       ∧ t = transcript W h (sent (f <$> l)).
Proof.
  intros Hid Hloc f. revert h Hloc. induction l as [|x l IH]; intros h Hloc.
  - exists []. by rewrite app_nil_r.
  - destruct (update_record_run W A E x (m x) h Hid) as (t1 & E1 & Hw1 & Ht1);
      [apply Hloc; left|].
    rewrite fmap_cons, refusal_cons. cbn [sent]. fold (f x) in E1, Hw1, Ht1.
    destruct (encodable (f x)).
    + destruct (IH (h ++ t1)) as (t2 & E2 & Hw2 & Ht2); [intros y Hy; apply Hloc; by right|].
      exists (t1 ++ t2). split_and!.
      * simpl. rewrite (bind_ret_eq _ _ _ _ _ E1), E2. by rewrite app_assoc.
      * by rewrite writes_of_app, Hw1, Hw2.
      * cbn [transcript]. by rewrite Ht2, Ht1.
    + exists t1. split_and!; [|done..]. simpl. by rewrite (bind_stop_eq _ _ _ _ _ E1).
Qed.

Lemma mask_isin (df : DataFrame) (others : list cell) :
  mask_rows (isin (column df PIVOT_COLUMN) others) (rows df)
  = filter (λ r, existsb (cell_same (r @@ PIVOT_COLUMN)) others) (rows df).
Proof.
  unfold isin, column. rewrite <- list_fmap_compose.
  apply (mask_rows_fmap (λ r, existsb (cell_same (r @@ PIVOT_COLUMN)) others)).
Qed.

Lemma mask_df_isin (df : DataFrame) (others : list cell) :
  mask_df df (isin (column df PIVOT_COLUMN) others)
  = mkDF (columns df)
      (filter (λ r, existsb (cell_same (r @@ PIVOT_COLUMN)) others) (rows df)).
Proof. unfold mask_df. by rewrite mask_isin. Qed.

Lemma common_rows_joined (airtable_df pcrs_df : DataFrame) (r : row) :
  r ∈ common_rows airtable_df pcrs_df →
  matching_row pcrs_df (r @@ PIVOT_COLUMN) = Some (joined pcrs_df (r @@ PIVOT_COLUMN)).
Proof.
  intros [Hr _]%list_elem_of_filter. apply Is_true_true in Hr.
  destruct (common_matching pcrs_df _ Hr) as [re E]. unfold joined. by rewrite E.
Qed.

(** The two frames after lines 136-145. *)
Lemma join_aligned (airtable_df pcrs_df : DataFrame) :
  unique_labels (column airtable_df PIVOT_COLUMN) = true →
  unique_labels (column pcrs_df PIVOT_COLUMN) = true →
  let a1 := mask_df airtable_df
              (isin (column airtable_df PIVOT_COLUMN) (column pcrs_df PIVOT_COLUMN)) in
  let p1 := mask_df pcrs_df
              (isin (column pcrs_df PIVOT_COLUMN) (column a1 PIVOT_COLUMN)) in
  align_inner (set_index PIVOT_COLUMN a1) (set_index PIVOT_COLUMN p1)
  = Some (mkIX (columns airtable_df ∖ {[PIVOT_COLUMN]})
            ((λ r, (r @@ PIVOT_COLUMN, delete PIVOT_COLUMN r))
               <$> common_rows airtable_df pcrs_df),
          mkIX (columns pcrs_df ∖ {[PIVOT_COLUMN]})
            ((λ r, (r @@ PIVOT_COLUMN,
                    delete PIVOT_COLUMN (joined pcrs_df (r @@ PIVOT_COLUMN))))
               <$> common_rows airtable_df pcrs_df)).
Proof.
  intros Hua Hup a1 p1. subst a1 p1.
  rewrite !mask_df_isin. fold (common_rows airtable_df pcrs_df).
  set (A1 := common_rows airtable_df pcrs_df).
  set (E1 := filter _ (rows pcrs_df)).
  unfold align_inner, set_index, index. cbn [columns rows icolumns irows].
  rewrite <- !list_fmap_compose.
  change (fst ∘ _) with (λ r : row, r @@ PIVOT_COLUMN).
  assert (HuA : unique_labels ((λ r, r @@ PIVOT_COLUMN) <$> A1) = true)
    by (by apply unique_labels_sublist).
  assert (HuE : unique_labels ((λ r, r @@ PIVOT_COLUMN) <$> E1) = true)
    by (by apply unique_labels_sublist).
  rewrite HuA, HuE. cbn [andb].
  assert (Hloc : ∀ r, r ∈ A1 →
    loc_row (mkIX (columns pcrs_df ∖ {[PIVOT_COLUMN]})
               ((λ r, (r @@ PIVOT_COLUMN, delete PIVOT_COLUMN r)) <$> E1)) (r @@ PIVOT_COLUMN)
    = Some (delete PIVOT_COLUMN (joined pcrs_df (r @@ PIVOT_COLUMN)))).
  { intros r Hr. unfold loc_row. cbn [irows]. rewrite find_fmap. cbn [fst].
    subst E1. rewrite find_filter.
    - fold (matching_row pcrs_df (r @@ PIVOT_COLUMN)).
      by rewrite (common_rows_joined airtable_df).
    - intros re Hre Hs. apply Is_true_true, existsb_same.
      exists (r @@ PIVOT_COLUMN). split.
      + by apply (list_elem_of_fmap_2 (λ r, r @@ PIVOT_COLUMN)).
      + by rewrite cell_same_sym. }
  rewrite filter_all.
  - f_equal. f_equal. f_equal.
    rewrite (omap_fmap_ext _
      (λ x, (x.1, delete PIVOT_COLUMN (joined pcrs_df x.1)))).
    + by rewrite <- list_fmap_compose.
    + intros x (r & -> & Hr)%list_elem_of_fmap. cbn [fst]. by rewrite Hloc.
  - intros x (r & -> & Hr)%list_elem_of_fmap. cbn [fst].
    apply Is_true_true. rewrite existsb_same.
    destruct (matching_row_spec _ _ _ (common_rows_joined _ _ _ Hr)) as [Hj Hs].
    exists (joined pcrs_df (r @@ PIVOT_COLUMN) @@ PIVOT_COLUMN). split; [|done].
    apply (list_elem_of_fmap_2 (λ r, r @@ PIVOT_COLUMN)).
    apply list_elem_of_filter. split; [|done].
    apply Is_true_true, existsb_same. exists (r @@ PIVOT_COLUMN). split.
    + by apply (list_elem_of_fmap_2 (λ r, r @@ PIVOT_COLUMN)).
    + by rewrite cell_same_sym.
Qed.

Lemma planned_updates_common (airtable_df pcrs_df : DataFrame) :
  planned_updates airtable_df pcrs_df
  = (λ r, update_of r (joined pcrs_df (r @@ PIVOT_COLUMN)))
      <$> filter (λ r, differs r (joined pcrs_df (r @@ PIVOT_COLUMN)))
            (common_rows airtable_df pcrs_df).
Proof.
  unfold planned_updates, common_rows.
  induction (rows airtable_df) as [|r l IH]; [done|].
  rewrite filter_cons. cbn [omap list_omap]. fold (omap (planned_update pcrs_df) l).
  rewrite IH. unfold planned_update at 1.
  destruct (existsb _ _) eqn:Ex.
  - destruct (common_matching _ _ Ex) as [re E]. rewrite E.
    assert (Hj : joined pcrs_df (r @@ PIVOT_COLUMN) = re) by (unfold joined; by rewrite E).
    rewrite decide_True by done. rewrite filter_cons, Hj.
    destruct (differs r re).
    + rewrite decide_True by done. by rewrite fmap_cons, Hj.
    + by rewrite decide_False by (intros []).
  - rewrite decide_False by (intros []).
    destruct (matching_row _ _) as [re|] eqn:E; [|done].
    apply matching_row_spec in E as [Hre Hs].
    assert (existsb (cell_same (r @@ PIVOT_COLUMN)) (column pcrs_df PIVOT_COLUMN) = true);
      [|congruence].
    apply existsb_same. exists (re @@ PIVOT_COLUMN). split; [|done].
    by apply (list_elem_of_fmap_2 (λ r, r @@ PIVOT_COLUMN)).
Qed.

(** The planned updates are those of the matched pairs that differ. *)
Lemma planned_updates_pairs (airtable_df pcrs_df : DataFrame) (q : request) :
  unique_labels (column pcrs_df PIVOT_COLUMN) = true →
  q ∈ planned_updates airtable_df pcrs_df
  ↔ ∃ r re, r ∈ rows airtable_df ∧ re ∈ rows pcrs_df
            ∧ cell_same (r @@ PIVOT_COLUMN) (re @@ PIVOT_COLUMN) = true
            ∧ differs r re = true ∧ q = update_of r re.
Proof.
  intros Hup. unfold planned_updates. rewrite list_elem_of_omap. split.
  - intros (r & Hr & Hq). unfold planned_update in Hq.
    destruct (matching_row _ _) as [re|] eqn:Em; [|done].
    destruct (differs r re) eqn:Ed; [|done]. injection Hq as <-.
    apply matching_row_spec in Em as [Hre Hs]. by exists r, re.
  - intros (r & re & Hr & Hre & Hs & Hd & ->). exists r. split; [done|].
    unfold planned_update. by rewrite (matching_row_unique _ _ re), Hd.
Qed.

(** They can all be encoded when no compared cell of the export is empty. *)
Lemma planned_updates_encodable (airtable_df pcrs_df : DataFrame) (q : request) :
  (∀ re c, re ∈ rows pcrs_df → c ∈ COLUMNS_TO_CHECK → isnull (re @@ c) = false) →
  q ∈ planned_updates airtable_df pcrs_df → encodable q = true.
Proof.
  intros Hfilled (r & Hr & Hq)%list_elem_of_omap. unfold planned_update in Hq.
  destruct (matching_row _ _) as [re|] eqn:Em; [|done].
  destruct (differs r re); [|done]. injection Hq as <-.
  apply matching_row_spec in Em as [Hre _]. cbn.
  apply encodable_to_dict. intros c Hc. by apply Hfilled.
Qed.

(** Under [diff_ready] the diff pass counts the planned updates and attempts
    them in the order of the remote table, up to the first one whose payload
    is refused. *)
Lemma synchronize_different_records_trace W (airtable_df pcrs_df : DataFrame) h :
  diff_ready airtable_df pcrs_df →
  let planned := planned_updates airtable_df pcrs_df in
  let head := [Print MSyncDifferent; Print (MFoundDifferent (length planned))] in
  ∃ t, synchronize_different_records W airtable_df (PyFrame pcrs_df) h
       = (h ++ head ++ t, refusal planned)
       ∧ writes_of t = sent planned
       ∧ t = transcript W (h ++ head) (sent planned).
Proof.
  intros (Ha & Hp & Hua & Hup & Hcols & Hid & Hidp) planned head.
  unfold synchronize_different_records.
  rewrite (bind_ret_eq _ _ _ _ _ (print_eq _ _)).
  rewrite (bind_ret_eq _ _ _ _ _ (getitem_ok _ _ _ Ha)).
  rewrite (bind_ret_eq _ _ _ _ _ (frame_of_ok _ _)).
  rewrite (bind_ret_eq _ _ _ _ _ (getitem_ok _ _ _ Hp)).
  cbv zeta. rewrite (join_aligned _ _ Hua Hup).
  set (A1 := common_rows airtable_df pcrs_df).
  set (ix := λ r : row, (r @@ PIVOT_COLUMN, delete PIVOT_COLUMN r)).
  set (jx := λ r : row,
    (r @@ PIVOT_COLUMN, delete PIVOT_COLUMN (joined pcrs_df (r @@ PIVOT_COLUMN)))).
  unfold lift_align.
  rewrite (bind_ret_eq _ _ _ (h ++ [Print MSyncDifferent])
             (mkIX (columns airtable_df ∖ {[PIVOT_COLUMN]}) (ix <$> A1),
              mkIX (columns pcrs_df ∖ {[PIVOT_COLUMN]}) (jx <$> A1))) by done.
  cbn [icolumns irows].
  rewrite !check_columns_ok
    by (intros c Hc; destruct (Hcols c Hc) as (?&?&?);
        apply elem_of_difference; split; [done|by intros ?%elem_of_singleton]).
  rewrite (bind_ret_eq _ _ _ (h ++ [Print MSyncDifferent]) tt) by done.
  rewrite (bind_ret_eq _ _ _ (h ++ [Print MSyncDifferent]) tt) by done.
  unfold eq_all, invert. cbn [irows].
  rewrite zip_fmap_diag, <- !list_fmap_compose.
  rewrite (mask_rows_fmap2
    (λ r, negb (forallb (λ c, cell_eq ((ix r).2 @@ c) ((jx r).2 @@ c)) COLUMNS_TO_CHECK)) ix).
  rewrite (bind_ret_eq _ _ _ _ _ (print_eq _ _)).
  edestruct (update_loop_run W
      (mkIX (columns airtable_df ∖ {[PIVOT_COLUMN]}) (ix <$> A1))
      (mkIX (columns pcrs_df ∖ {[PIVOT_COLUMN]}) (jx <$> A1))
      (λ x, delete PIVOT_COLUMN (joined pcrs_df x.1))) as (t & -> & Hw & Ht).
  { cbn [icolumns]. apply elem_of_difference. split; [done|by intros ?%elem_of_singleton]. }
  { intros x (r & -> & [_ Hr]%list_elem_of_filter)%list_elem_of_fmap.
    unfold loc_row. cbn [irows]. rewrite find_fmap. subst ix jx. cbn [fst snd].
    rewrite (find_unique (λ r, r @@ PIVOT_COLUMN) A1 r); [done| |done].
    by apply unique_labels_sublist. }
  cbv zeta in Hw, Ht.
  match type of Hw with _ = sent ?l => assert (Hplan : l = planned) end.
  { subst planned. rewrite planned_updates_common. fold A1.
    rewrite <- list_fmap_compose.
    assert (Hd : ∀ (r re : row) c, c ∈ COLUMNS_TO_CHECK →
              delete PIVOT_COLUMN r @@ c = r @@ c).
    { intros r re c Hc. apply cell_at_delete_ne. destruct (Hcols c Hc) as (?&?&?). done. }
    rewrite (filter_ext_in _ (λ r, differs r (joined pcrs_df (r @@ PIVOT_COLUMN)))).
    - apply list_fmap_ext. intros i r _. unfold update_of. subst ix. cbn [compose fst snd].
      rewrite cell_at_delete_ne by done. f_equal.
      apply to_dict_ext. intros c Hc. by apply Hd.
    - intros r _. unfold differs. subst ix jx. cbn [fst snd].
      rewrite (forallb_ext_in _
        (λ c, cell_eq (r @@ c) (joined pcrs_df (r @@ PIVOT_COLUMN) @@ c))); [done|].
      intros c Hc. by rewrite !Hd. }
  pose proof (f_equal length Hplan) as Hlen. rewrite length_fmap in Hlen.
  rewrite Hplan, Hlen in Ht |- *. rewrite Hplan in Hw.
  exists t. subst head. split_and!; [by rewrite <- !app_assoc|done|].
  by rewrite <- app_assoc in Ht.
Qed.

Lemma synchronize_different_records_run W (airtable_df pcrs_df : DataFrame) h :
  diff_ready airtable_df pcrs_df →
  let planned := planned_updates airtable_df pcrs_df in
  ∃ t, synchronize_different_records W airtable_df (PyFrame pcrs_df) h
       = (h ++ t, refusal planned)
       ∧ writes_of t = sent planned.
Proof.
  intros Hready planned.
  destruct (synchronize_different_records_trace W _ _ h Hready) as (t & E & Hw & _).
  eexists. split; [exact E|]. by rewrite writes_of_app.
Qed.

(** ** Rules for [satisfies] and [agree] *)

Section Rules.
Context (I : trace → trace → Prop) `{!Composable I}.

Lemma satisfies_ret {A} (Φ : A → Prop) (a : A) : Φ a → satisfies I Φ (mret a).
Proof.
  intros Ha h. exists []. rewrite app_nil_r. repeat split; [apply composable_nil|].
  intros b [= <-]. done.
Qed.

Lemma satisfies_raise {A} (Φ : A → Prop) (e : exn) : satisfies I Φ (raise e).
Proof. intros h. exists []. rewrite app_nil_r. repeat split; [apply composable_nil|done]. Qed.

Lemma satisfies_stop {A} (Φ : A → Prop) (o : outcome A) :
  (∀ a, o ≠ Ret a) → satisfies I Φ (λ h, (h, o)).
Proof.
  intros Ho h. exists []. rewrite app_nil_r. repeat split; [apply composable_nil|].
  intros a Ha. by destruct (Ho a).
Qed.

Lemma satisfies_bind {A B} (Φ : A → Prop) (Ψ : B → Prop) (m : M A) (k : A → M B) :
  satisfies I Φ m → (∀ a, Φ a → satisfies I Ψ (k a)) → satisfies I Ψ (m ≫= k).
Proof.
  intros Hm Hk h. destruct (Hm h) as (t1 & E1 & I1 & HΦ).
  unfold mbind, M_bind. destruct (m h) as [h' [a| | |]]; simpl in *; subst h'.
  - destruct (Hk a (HΦ a eq_refl) (h ++ t1)) as (t2 & E2 & I2 & HΨ).
    exists (t1 ++ t2). rewrite E2, app_assoc. repeat split; [|done].
    by apply composable_app.
  - exists t1. by repeat split.
  - exists t1. by repeat split.
  - exists t1. by repeat split.
Qed.

Lemma satisfies_weaken {A} (Φ Ψ : A → Prop) (m : M A) :
  (∀ a, Φ a → Ψ a) → satisfies I Φ m → satisfies I Ψ m.
Proof.
  intros HΦΨ Hm h. destruct (Hm h) as (t & E & It & HΦ).
  exists t. repeat split; [done..|]. intros a Ha. by apply HΦΨ, HΦ.
Qed.

Lemma satisfies_for_each {A} (l : list A) (body : A → M unit) :
  (∀ x, x ∈ l → satisfies I (λ _, True) (body x)) →
  satisfies I (λ _, True) (for_each l body).
Proof.
  induction l as [|x l IH]; intros Hbody.
  - by apply satisfies_ret.
  - simpl. apply satisfies_bind with (λ _, True).
    + apply Hbody. left.
    + intros _ _. apply IH. intros y Hy. apply Hbody. by right.
Qed.

End Rules.

Section Steps.
Context (I : trace → trace → Prop) `{!Composable I}.

Lemma satisfies_emit (e : event) : (∀ h, I h [e]) → satisfies I (λ _, True) (emit e).
Proof. intros He h. exists [e]. by repeat split. Qed.

Lemma satisfies_print (m : message) :
  (∀ h, I h [Print m]) → satisfies I (λ _, True) (print m).
Proof. apply satisfies_emit. Qed.

Lemma satisfies_getitem (df : DataFrame) (c : string) :
  satisfies I (λ col, c ∈ columns df ∧ col = column df c) (getitem df c).
Proof.
  unfold getitem. case_bool_decide.
  - by apply satisfies_ret.
  - by apply satisfies_raise.
Qed.

Lemma satisfies_frame_of (v : pyval) :
  satisfies I (λ df, v = PyFrame df) (frame_of v).
Proof. destruct v; [by apply satisfies_raise|by apply satisfies_ret]. Qed.

Lemma satisfies_check_columns (have : gset string) (cols : list string) :
  satisfies I (λ _, ∀ c, c ∈ cols → c ∈ have) (check_columns have cols).
Proof.
  unfold check_columns. destruct (find _ cols) as [c|] eqn:E.
  - by apply satisfies_raise.
  - apply satisfies_ret; [done|]. intros c Hc%list_elem_of_In.
    apply (find_none _ _ E) in Hc. apply negb_false_iff in Hc.
    by apply bool_decide_eq_true in Hc.
Qed.

Lemma satisfies_lift_align (r : option (IndexedFrame * IndexedFrame)) :
  satisfies I (λ fs, r = Some fs) (lift_align r).
Proof. destruct r; [by apply satisfies_ret|by apply satisfies_stop]. Qed.

End Steps.

#[local] Instance writes_all_composable (Q : request → Prop) : Composable (writes_all Q).
Proof.
  split; unfold writes_all.
  - intros _. constructor.
  - intros _ t1 t2 H1 H2. rewrite writes_of_app. by apply Forall_app.
Qed.

Lemma writes_all_print (Q : request → Prop) (m : message) h : writes_all Q h [Print m].
Proof. constructor. Qed.

Create HintDb trace.
#[local] Hint Resolve writes_all_print : trace.

(** [after lem]: run the first step of a sequence by rule [lem]. *)
Ltac after lem :=
  eapply satisfies_bind; [apply _|apply lem; auto with trace typeclass_instances|].

Lemma mask_rows_elem_of {A} (mask : list bool) (l : list A) (x : A) :
  x ∈ mask_rows mask l → x ∈ l.
Proof.
  revert mask. induction l as [|y l IH]; intros [|b mask]; simpl;
    try (by intros ?%elem_of_nil).
  destruct b.
  - intros [->|Hx]%elem_of_cons; [left|right; by eapply IH].
  - intros Hx. right. by eapply IH.
Qed.

Lemma align_inner_rows (a p a' p' : IndexedFrame) :
  align_inner a p = Some (a', p') →
  icolumns a' = icolumns a ∧ icolumns p' = icolumns p
  ∧ (∀ x, x ∈ irows a' → x ∈ irows a)
  ∧ (∀ y, y ∈ irows p' →
       ∃ z, z ∈ irows p ∧ z.2 = y.2 ∧ cell_same y.1 z.1 = true).
Proof.
  unfold align_inner. destruct (_ && _); [|done]. intros [= <- <-].
  cbn [icolumns irows]. repeat split.
  - by intros x [_ Hx]%list_elem_of_filter.
  - intros y (x & _ & Hy)%list_elem_of_omap.
    unfold loc_row in Hy. destruct (find _ _) as [z|] eqn:E; [|done].
    injection Hy as <-. apply find_some in E as [Hz Hs].
    exists z. split; [by apply list_elem_of_In|done].
Qed.

Lemma set_index_rows (df : DataFrame) (mask : list bool) (x : cell * row) :
  x ∈ irows (set_index PIVOT_COLUMN (mask_df df mask)) →
  ∃ r, r ∈ rows df ∧ x = (r @@ PIVOT_COLUMN, delete PIVOT_COLUMN r).
Proof.
  unfold set_index, mask_df. cbn [irows rows].
  intros (r & -> & Hr%mask_rows_elem_of)%list_elem_of_fmap. by exists r.
Qed.

Lemma satisfies_write_all W (Q : request → Prop) (q : request) :
  Q q → satisfies (writes_all Q) (λ _, True) (http_write W q).
Proof.
  intros Hq h. unfold http_write. destruct (encodable q).
  - exists [Request q]. repeat split.
    unfold writes_all. destruct q; cbn; by repeat constructor.
  - exists []. rewrite app_nil_r. split_and!; [done|constructor|done].
Qed.

(** Every write request of the diff pass is a partial update. *)
Lemma diff_pass_partial_updates W (airtable_df : DataFrame) (pcrs_df : pyval) :
  satisfies (writes_all (partial_update airtable_df pcrs_df)) (λ _, True)
    (synchronize_different_records W airtable_df pcrs_df).
Proof.
  unfold synchronize_different_records.
  after satisfies_print; intros _ _.
  after satisfies_getitem; intros ? [Ha ->].
  after satisfies_frame_of; intros export ->.
  after satisfies_getitem; intros ? [Hp ->].
  cbv zeta.
  after satisfies_lift_align; intros [A E] Hal.
  apply align_inner_rows in Hal as (HcA & HcE & HrA & HrE).
  after satisfies_check_columns; intros _ _.
  after satisfies_check_columns; intros ? Hcols; cbv beta in Hcols.
  after satisfies_print; intros _ _.
  apply satisfies_for_each; [apply _|]. intros [k r'] Hx%mask_rows_elem_of.
  apply HrA, set_index_rows in Hx as (r & Hr & [= -> ->]).
  unfold update_record.
  after satisfies_check_columns; intros ? Hid; cbv beta in Hid.
  destruct (loc_row E _) as [pr|] eqn:Hloc; [|by apply satisfies_raise; apply _].
  unfold loc_row in Hloc. destruct (find _ _) as [y|] eqn:Hy; [|done].
  injection Hloc as <-. apply find_some in Hy as [Hy%list_elem_of_In Hs]. cbn [fst] in Hs.
  apply HrE in Hy as (z & Hz & Hzy & Hyz).
  apply set_index_rows in Hz as (re & Hre & ->). cbn [fst snd] in *.
  assert (HidP : "airtable_record_id" ≠ PIVOT_COLUMN).
  { assert (H : "airtable_record_id" ∈ icolumns A) by (apply Hid; left).
    rewrite HcA in H. unfold set_index in H. cbn [icolumns] in H.
    apply elem_of_difference in H as [_ H]. intros E'. apply H. by apply elem_of_singleton. }
  assert (HcolsP : ∀ c, c ∈ COLUMNS_TO_CHECK → c ≠ PIVOT_COLUMN).
  { intros c Hc ->. apply Hcols in Hc. rewrite HcE in Hc. unfold set_index in Hc.
    cbn [icolumns] in Hc. apply elem_of_difference in Hc as [_ Hc].
    by apply Hc, elem_of_singleton. }
  eapply satisfies_bind; [apply _| |intros resp _].
  - apply satisfies_write_all. exists export, r, re, (to_dict COLUMNS_TO_CHECK y.2).
    repeat split; [done..| | | |].
    + by apply (cell_same_trans _ _ _ Hs).
    + by rewrite cell_at_delete_ne.
    + apply to_dict_dom.
    + intros c Hc. rewrite to_dict_lookup, decide_True by done.
      rewrite <- Hzy. by rewrite cell_at_delete_ne by (by apply not_eq_sym, HcolsP).
  - destruct (negb _); apply satisfies_print; auto with trace.
Qed.

Lemma satisfies_emitted {A} (I : trace → trace → Prop) (Φ : A → Prop) (m : M A) h :
  satisfies I Φ m → I h (emitted m h).
Proof.
  intros Hm. destruct (Hm h) as (t & E & It & _).
  unfold emitted. by rewrite E, drop_app_length.
Qed.

(** C3. Every partial-update request of [synchronize_different_records]
    goes to a remote row, carries exactly the compared fields and no other,
    and holds the values of the export row with the same pivot. *)
Theorem updates_carry_only_compared_fields W (airtable_df : DataFrame) (pcrs_df : pyval)
    (h : trace) (q : request) :
  q ∈ writes_of (emitted (synchronize_different_records W airtable_df pcrs_df) h) →
  ∃ export r re fields,
    pcrs_df = PyFrame export
    ∧ r ∈ rows airtable_df ∧ re ∈ rows export
    ∧ cell_same (r @@ PIVOT_COLUMN) (re @@ PIVOT_COLUMN) = true
    ∧ q = PATCH (r @@ "airtable_record_id") fields
    ∧ dom fields = list_to_set COLUMNS_TO_CHECK
    ∧ ∀ c, c ∈ COLUMNS_TO_CHECK → fields !! c = Some (re @@ c).
Proof.
  intros Hq.
  pose proof (satisfies_emitted _ _ _ h (diff_pass_partial_updates W airtable_df pcrs_df))
    as Hall.
  unfold writes_all in Hall. rewrite Forall_forall in Hall. by apply Hall.
Qed.


Lemma differs_same_present (r re : row) :
  (∀ c, c ∈ COLUMNS_TO_CHECK → r @@ c = re @@ c ∧ isnull (r @@ c) = false) →
  differs r re = false.
Proof.
  intros Heq. unfold differs. apply negb_false_iff, forallb_forall.
  intros c Hc%list_elem_of_In. destruct (Heq c Hc) as [<- Hn]. by apply cell_eq_refl.
Qed.


Lemma omap_skip {A B} (f : A → option B) (P : A → Prop) `{∀ x, Decision (P x)} (l : list A) :
  (∀ x, x ∈ l → ¬ P x → f x = None) → omap f l = omap f (filter P l).
Proof.
  induction l as [|x l IH]; intros Hf; [done|].
  assert (IH' : omap f l = omap f (filter P l)).
  { apply IH. intros y Hy. apply Hf. by right. }
  rewrite filter_cons. destruct (decide (P x)) as [HP|HP].
  - cbn [omap list_omap]. fold (omap f l). fold (omap f (filter P l)). by rewrite IH'.
  - cbn [omap list_omap]. fold (omap f l). rewrite (Hf x); [done|left|done].
Qed.

Lemma omap_none {A B} (f : A → option B) (l : list A) :
  (∀ x, x ∈ l → f x = None) → omap f l = [].
Proof.
  induction l as [|x l IH]; intros Hf; [done|].
  cbn [omap list_omap]. fold (omap f l). rewrite (Hf x) by left.
  apply IH. intros y Hy. apply Hf. by right.
Qed.

(** A matched pair whose compared fields are all present and identical is
    not selected: the updates that the pass attempts are those planned for
    the other remote rows (the part of C1 that the code keeps). *)
Theorem identical_present_not_updated W (airtable_df pcrs_df : DataFrame) (r re : row)
    (h : trace) :
  diff_ready airtable_df pcrs_df →
  r ∈ rows airtable_df → re ∈ rows pcrs_df →
  cell_same (r @@ PIVOT_COLUMN) (re @@ PIVOT_COLUMN) = true →
  (∀ c, c ∈ COLUMNS_TO_CHECK → r @@ c = re @@ c ∧ isnull (r @@ c) = false) →
  let run := synchronize_different_records W airtable_df (PyFrame pcrs_df) in
  let others := omap (planned_update pcrs_df) (filter (λ r', r' ≠ r) (rows airtable_df)) in
  planned_updates airtable_df pcrs_df = others
  ∧ writes_of (emitted run h) = sent others.
Proof.
  intros Hready Hr Hre Hs Heq run others.
  destruct (synchronize_different_records_run W _ _ h Hready) as (t & E & Hw).
  destruct Hready as (_ & _ & _ & Hup & _).
  assert (Hplan : planned_updates airtable_df pcrs_df = others).
  { apply omap_skip. intros r' _ Hr'.
    apply dec_stable in Hr' as ->. unfold planned_update.
    rewrite (matching_row_unique _ _ re Hup Hre Hs). by rewrite differs_same_present. }
  subst run. by rewrite (emitted_eq _ _ _ _ E), Hw, Hplan.
Qed.

(** Unchanged data, every matched pair identical on present compared
    fields: the pass issues no request at all. *)
Theorem unchanged_present_data_no_update W (airtable_df pcrs_df : DataFrame) (h : trace) :
  diff_ready airtable_df pcrs_df →
  (∀ r re c, r ∈ rows airtable_df → re ∈ rows pcrs_df →
     cell_same (r @@ PIVOT_COLUMN) (re @@ PIVOT_COLUMN) = true →
     c ∈ COLUMNS_TO_CHECK → r @@ c = re @@ c ∧ isnull (r @@ c) = false) →
  let run := synchronize_different_records W airtable_df (PyFrame pcrs_df) in
  result run h = Ret tt ∧ writes_of (emitted run h) = [].
Proof.
  intros Hready Heq run.
  destruct (synchronize_different_records_run W _ _ h Hready) as (t & E & Hw).
  assert (Hnone : planned_updates airtable_df pcrs_df = []).
  { unfold planned_updates.
    apply omap_none. intros r Hr. unfold planned_update.
    destruct (matching_row _ _) as [re|] eqn:Em; [|done].
    apply matching_row_spec in Em as [Hre Hs].
    rewrite differs_same_present; [done|]. intros c Hc. by apply (Heq r re c). }
  subst run. rewrite (result_eq _ _ _ _ E), (emitted_eq _ _ _ _ E), Hw.
  by rewrite Hnone.
Qed.

(** ** Rejected updates *)

Lemma outcome_rel_eq {A} (o1 o2 : outcome A) : outcome_rel eq o1 o2 → o1 = o2.
Proof. destruct o1, o2; simpl; try done; by intros ->. Qed.

(** Steps that leave the history alone and end the same way from every
    history agree with themselves. *)
Lemma agree_pure {A} (m : M A) (o : outcome A) :
  (∀ h, m h = (h, o)) → agree eq m m.
Proof.
  intros Hm h1 h2. exists [], []. rewrite !Hm, !app_nil_r.
  repeat split. by destruct o.
Qed.

Lemma agree_ret {A} (R : A → A → Prop) (a b : A) : R a b → agree R (mret a) (mret b).
Proof. intros Hab h1 h2. exists [], []. by rewrite !app_nil_r. Qed.

Lemma agree_print (m1 m2 : message) : agree eq (print m1) (print m2).
Proof. intros h1 h2. by exists [Print m1], [Print m2]. Qed.

Lemma agree_write W1 W2 (q : request) :
  agree (λ _ _, True) (http_write W1 q) (http_write W2 q).
Proof.
  intros h1 h2. unfold http_write. destruct (encodable q).
  - by exists [Request q], [Request q].
  - exists [], []. by rewrite !app_nil_r.
Qed.

Lemma agree_bind {A B} (R : A → A → Prop) (S : B → B → Prop)
    (m1 m2 : M A) (k1 k2 : A → M B) :
  agree R m1 m2 → (∀ a b, R a b → agree S (k1 a) (k2 b)) →
  agree S (m1 ≫= k1) (m2 ≫= k2).
Proof.
  intros Hm Hk h1 h2. destruct (Hm h1 h2) as (t1 & t2 & E1 & E2 & Hw & Ho).
  unfold mbind, M_bind.
  destruct (m1 h1) as [h1' [a| | |]], (m2 h2) as [h2' [b| | |]];
    simpl in *; subst; try done; try (by exists t1, t2).
  destruct (Hk a b Ho (h1 ++ t1) (h2 ++ t2)) as (u1 & u2 & F1 & F2 & Hu & Ho').
  exists (t1 ++ u1), (t2 ++ u2). rewrite F1, F2, !app_assoc, !writes_of_app, Hw, Hu.
  done.
Qed.

(** [both lem]: run the first step of the two sequences by rule [lem]. *)
Ltac both lem := eapply agree_bind; [apply lem|].

Lemma agree_for_each {A} (l : list A) (body1 body2 : A → M unit) :
  (∀ x, x ∈ l → agree eq (body1 x) (body2 x)) →
  agree eq (for_each l body1) (for_each l body2).
Proof.
  induction l as [|x l IH]; intros Hbody.
  - by apply agree_ret.
  - simpl. apply agree_bind with eq.
    + apply Hbody. left.
    + intros _ _ _. apply IH. intros y Hy. apply Hbody. by right.
Qed.

Lemma agree_getitem (df : DataFrame) (c : string) : agree eq (getitem df c) (getitem df c).
Proof. unfold getitem. case_bool_decide; by eapply agree_pure. Qed.

Lemma agree_frame_of (v : pyval) : agree eq (frame_of v) (frame_of v).
Proof. destruct v; by eapply agree_pure. Qed.

Lemma agree_check_columns (have : gset string) (cols : list string) :
  agree eq (check_columns have cols) (check_columns have cols).
Proof. unfold check_columns. destruct (find _ _); by eapply agree_pure. Qed.

Lemma agree_lift_align (r : option (IndexedFrame * IndexedFrame)) :
  agree eq (lift_align r) (lift_align r).
Proof. destruct r; by eapply agree_pure. Qed.

(** The requests and the outcome of the diff pass do not depend on the
    answers of the server. *)
Lemma diff_pass_agree W1 W2 (airtable_df : DataFrame) (pcrs_df : pyval) :
  agree eq (synchronize_different_records W1 airtable_df pcrs_df)
           (synchronize_different_records W2 airtable_df pcrs_df).
Proof.
  unfold synchronize_different_records.
  both agree_print; intros _ _ _.
  both agree_getitem; intros ? ? <-.
  both agree_frame_of; intros ? ? <-.
  both agree_getitem; intros ? ? <-.
  cbv zeta.
  both agree_lift_align; intros [A E] ? <-.
  both agree_check_columns; intros _ _ _.
  both agree_check_columns; intros _ _ _.
  both agree_print; intros _ _ _.
  apply agree_for_each. intros [k r] _. unfold update_record.
  both agree_check_columns; intros _ _ _.
  destruct (loc_row E k); [|by eapply agree_pure].
  both agree_write; intros r1 r2 _.
  destruct (negb _), (negb _); apply agree_print.
Qed.

Lemma agree_runs {A} (m1 m2 : M A) h1 h2 :
  agree eq m1 m2 →
  writes_of (emitted m1 h1) = writes_of (emitted m2 h2) ∧ result m1 h1 = result m2 h2.
Proof.
  intros Hm. destruct (Hm h1 h2) as (t1 & t2 & E1 & E2 & Hw & Ho).
  unfold emitted, result. rewrite E1, E2, !drop_app_length.
  split; [done|by apply outcome_rel_eq].
Qed.

(** What holds of write failures in the diff pass: the requests sent and
    the way the pass ends are the same whatever the server answers, so a
    rejected update neither stops the loop nor changes a later request. *)
Theorem rejected_updates_change_nothing W W' (airtable_df : DataFrame) (pcrs_df : pyval)
    (h h' : trace) :
  let diff W := synchronize_different_records W airtable_df pcrs_df in
  writes_of (emitted (diff W) h) = writes_of (emitted (diff W') h')
  ∧ result (diff W) h = result (diff W') h'.
Proof. exact (agree_runs _ _ h h' (diff_pass_agree W W' airtable_df pcrs_df)). Qed.

(** ** Pagination (C6, C10) *)

Lemma fetch_pages_step W fuel n h0 acc :
  fetch_pages W (S fuel) (loop_state W h0 n).2 acc (loop_state W h0 n).1
  = if last_page W h0 n
    then ((loop_state W h0 (S n)).1, Ret (acc ++ page_rows (nth_page W h0 n)))
    else fetch_pages W fuel (loop_state W h0 (S n)).2
           (acc ++ page_rows (nth_page W h0 n)) (loop_state W h0 (S n)).1.
Proof.
  cbn [fetch_pages loop_state fst snd]. unfold mbind, M_bind, http_get_table, last_page.
  fold (nth_page W h0 n). by destruct (negb _).
Qed.

(** With the first [k] pages from round [n] on carrying an offset and the
    next one none, the loop returns all their records, in order. *)
Lemma fetch_pages_run W h0 (k n fuel : nat) (acc : list api_record) :
  (k < fuel)%nat →
  (∀ i, (n ≤ i < n + k)%nat → last_page W h0 i = false) →
  last_page W h0 (n + k) = true →
  fetch_pages W fuel (loop_state W h0 n).2 acc (loop_state W h0 n).1
  = ((loop_state W h0 (S (n + k))).1,
     Ret (acc ++ concat ((λ i, page_rows (nth_page W h0 i)) <$> seq n (S k)))).
Proof.
  revert n fuel acc. induction k as [|k IH]; intros n [|fuel] acc Hfuel Hmore Hlast;
    try lia; rewrite fetch_pages_step.
  - rewrite Nat.add_0_r in *. rewrite Hlast. cbn [seq fmap list_fmap concat].
    by rewrite app_nil_r.
  - rewrite Hmore by lia. rewrite (IH (S n)).
    + replace (S n + k)%nat with (n + S k)%nat by lia.
      rewrite <- app_assoc. done.
    + lia.
    + intros i Hi. apply Hmore. lia.
    + by replace (S n + k)%nat with (n + S k)%nat by lia.
Qed.

(** A result of the loop means that some page was the last one. *)
Lemma fetch_pages_stops W h0 (fuel n : nat) (acc : list api_record) h' r :
  fetch_pages W fuel (loop_state W h0 n).2 acc (loop_state W h0 n).1 = (h', Ret r) →
  ∃ k, last_page W h0 (n + k) = true.
Proof.
  revert n acc. induction fuel as [|fuel IH]; intros n acc; [done|].
  rewrite fetch_pages_step. destruct (last_page W h0 n) eqn:E.
  - intros _. exists 0%nat. by rewrite Nat.add_0_r.
  - intros [k Hk]%IH. exists (S k). by replace (n + S k)%nat with (S n + k)%nat by lia.
Qed.

Lemma fetch_pages_outcome W (fuel : nat) offset acc h :
  (fetch_pages W fuel offset acc h).2 = OutOfFuel
  ∨ ∃ r, (fetch_pages W fuel offset acc h).2 = Ret r.
Proof.
  revert offset acc h. induction fuel as [|fuel IH]; intros offset acc h; [by left|].
  cbn [fetch_pages]. unfold mbind, M_bind, http_get_table.
  destruct (negb _); [right; by eexists|apply IH].
Qed.

Lemma first_last_page (f : nat → bool) (n : nat) :
  f n = true → ∃ N, f N = true ∧ ∀ i, (i < N)%nat → f i = false.
Proof.
  assert (Hscan : ∀ m, (∃ N, f N = true ∧ ∀ i, (i < N)%nat → f i = false)
                       ∨ (∀ i, (i < m)%nat → f i = false)).
  { induction m as [|m [IH|IH]]; [right; lia|by left|].
    destruct (f m) eqn:E; [left; by exists m|].
    right. intros i Hi. destruct (decide (i = m)) as [->|]; [done|]. apply IH. lia. }
  intros Hn. destruct (Hscan (S n)) as [Hex|Hall]; [done|].
  rewrite Hall in Hn by lia. done.
Qed.

Lemma length_concat_fmap {A} (g : nat → list A) (l : list nat) :
  length (concat (g <$> l)) = sum_list ((λ i, length (g i)) <$> l).
Proof.
  induction l as [|i l IH]; [done|].
  rewrite !fmap_cons. cbn [concat sum_list sum_list_with]. by rewrite length_app, IH.
Qed.

Lemma sum_list_seq_const (g : nat → nat) (N K : nat) :
  (∀ i, (i < N)%nat → g i = K) → sum_list (g <$> seq 0 N) = (N * K)%nat.
Proof.
  induction N as [|N IH]; intros Hg; [done|].
  rewrite seq_S, fmap_app.

  rewrite sum_list_with_app. rewrite IH by (intros i Hi; apply Hg; lia).
  cbn [fmap list_fmap sum_list_with Nat.add id]. rewrite (Hg N) by lia. lia.
Qed.

(** The table that [get_airtable_data] returns from a finite page sequence. *)
Lemma get_airtable_data_pages W (h0 : trace) (N fuel : nat) :
  (∀ i, (i < N)%nat → last_page W h0 i = false) →
  last_page W h0 N = true →
  (N < fuel)%nat →
  ∃ df, result (get_airtable_data W fuel) h0 = Ret df
    ∧ rows df = record_data <$> concat ((λ i, page_rows (nth_page W h0 i)) <$> seq 0 (S N))
    ∧ length (rows df)
      = sum_list ((λ i, length (page_rows (nth_page W h0 i))) <$> seq 0 (S N))
    ∧ ∀ K, (∀ i, (i < N)%nat → length (page_rows (nth_page W h0 i)) = K) →
        length (rows df) = (N * K + length (page_rows (nth_page W h0 N)))%nat.
Proof.
  intros Hmore Hlast Hfuel.
  assert (Hrun := fetch_pages_run W h0 N 0 fuel [] Hfuel
                    (λ i Hi, Hmore i (proj2 Hi)) Hlast).
  cbn [loop_state fst snd app] in Hrun.
  exists (DataFrame_of_dicts
            (record_data <$> concat ((λ i, page_rows (nth_page W h0 i)) <$> seq 0 (S N)))).
  split.
  - unfold result, get_airtable_data, mbind, M_bind. by rewrite Hrun.
  - cbn [DataFrame_of_dicts rows app].
    assert (Hlen : length (record_data <$>
        concat ((λ i, page_rows (nth_page W h0 i)) <$> seq 0 (S N)))
      = sum_list ((λ i, length (page_rows (nth_page W h0 i))) <$> seq 0 (S N))).
    { by rewrite length_fmap, length_concat_fmap. }
    repeat split; [done|]. intros K HK. rewrite Hlen.
    rewrite seq_S, fmap_app, sum_list_with_app.
    rewrite (sum_list_seq_const (λ i, length (page_rows (nth_page W h0 i))) N K HK).
    cbn [fmap list_fmap sum_list_with Nat.add id]. lia.
Qed.

(** C6. When the first [N] pages carry a continuation token and the next
    one does not, [get_airtable_data] returns the table of the records of
    all [N + 1] pages, each once and in page order; its length is the sum of
    the page lengths, [N * K] plus the last page when the first [N] pages
    hold [K] records each. *)
Theorem pagination_accumulates_all_pages W (h0 : trace) (N fuel : nat) :
  (∀ i, (i < N)%nat → last_page W h0 i = false) →
  last_page W h0 N = true →
  (N < fuel)%nat →
  ∃ df, result (get_airtable_data W fuel) h0 = Ret df
    ∧ rows df = record_data <$> concat ((λ i, page_rows (nth_page W h0 i)) <$> seq 0 (S N))
    ∧ length (rows df)
      = sum_list ((λ i, length (page_rows (nth_page W h0 i))) <$> seq 0 (S N))
    ∧ ∀ K, (∀ i, (i < N)%nat → length (page_rows (nth_page W h0 i)) = K) →
        length (rows df) = (N * K + length (page_rows (nth_page W h0 N)))%nat.
Proof. apply get_airtable_data_pages. Qed.

Lemma get_airtable_data_returns W (h0 : trace) (n fuel : nat) :
  last_page W h0 n = true → (n < fuel)%nat →
  ∃ df, result (get_airtable_data W fuel) h0 = Ret df.
Proof.
  intros Hn Hfuel.
  destruct (first_last_page (last_page W h0) n Hn) as (N & HN & Hbefore).
  assert (N ≤ n)%nat.
  { destruct (decide (N ≤ n)%nat); [done|]. rewrite Hbefore in Hn by lia. done. }
  destruct (get_airtable_data_pages W h0 N fuel Hbefore HN) as (df & E & _);
    [lia|]. by exists df.
Qed.

Lemma get_airtable_data_result W (fuel : nat) (h0 : trace) (df : DataFrame) :
  result (get_airtable_data W fuel) h0 = Ret df →
  ∃ h' r, fetch_pages W fuel None [] h0 = (h', Ret r).
Proof.
  unfold result, get_airtable_data, mbind, M_bind.
  destruct (fetch_pages W fuel None [] h0) as [h' [r| | |]]; try done. by exists h', r.
Qed.

(** C10. [get_airtable_data] returns (with enough fuel) exactly when some
    page of the run carries no continuation token; with such a page in
    round [n], any fuel above [n] gives the table, and with no such page
    the loop runs out of every fuel. *)
Theorem pagination_terminates_iff_last_page W (h0 : trace) :
  ((∃ fuel df, result (get_airtable_data W fuel) h0 = Ret df)
   ↔ ∃ n, last_page W h0 n = true)
  ∧ (∀ n fuel, last_page W h0 n = true → (n < fuel)%nat →
       ∃ df, result (get_airtable_data W fuel) h0 = Ret df)
  ∧ ((∀ n, last_page W h0 n = false) →
       ∀ fuel, result (get_airtable_data W fuel) h0 = OutOfFuel).
Proof.
  assert (Hstop : ∀ fuel df, result (get_airtable_data W fuel) h0 = Ret df →
                    ∃ n, last_page W h0 n = true).
  { intros fuel df (h' & r & E)%get_airtable_data_result.
    by apply (fetch_pages_stops W h0 fuel 0 [] h' r). }
  repeat split.
  - intros (fuel & df & E). by apply (Hstop fuel df).
  - intros [n Hn]. exists (S n). apply (get_airtable_data_returns W h0 n); [done|lia].
  - intros n fuel. apply get_airtable_data_returns.
  - intros Hnever fuel.
    pose proof (fetch_pages_outcome W fuel None [] h0) as Hout.
    unfold result, get_airtable_data, mbind, M_bind.
    destruct (fetch_pages W fuel None [] h0) as [h' o] eqn:E. cbn [snd] in Hout.
    destruct Hout as [->|[r ->]]; [done|].
    destruct (fetch_pages_stops W h0 fuel 0 [] h' r E) as [k Hk].
    by rewrite Hnever in Hk.
Qed.

(** ** Configuration (C8) *)

Lemma config_lookup (env_shared env_secret os_environ : gmap string (option string))
    (k : string) :
  config env_shared env_secret os_environ !! k
  = match os_environ !! k with
    | Some v => Some v
    | None => match env_secret !! k with
              | Some v => Some v
              | None => env_shared !! k
              end
    end.
Proof.
  unfold config, dict_update. rewrite (right_id_L ∅ (∪)).
  destruct (os_environ !! k) as [v|] eqn:Eo.
  - by apply lookup_union_Some_l.
  - rewrite lookup_union_r by done.
    destruct (env_secret !! k) as [v|] eqn:Es.
    + by apply lookup_union_Some_l.
    + by rewrite lookup_union_r.
Qed.

(** The three layers that the code merges: the latest one that defines a
    key gives its value, and a key that none defines is absent (line 15 and
    the following then raise KeyError: there is no default). *)
Lemma config_three_layers
    (env_shared env_secret os_environ : gmap string (option string)) (k : string) :
  let layers := [env_shared; env_secret; os_environ] in
  (∀ (i : nat) layer v,
     layers !! i = Some layer → layer !! k = Some v →
     (∀ (j : nat) later, (i < j)%nat → layers !! j = Some later → later !! k = None) →
     config env_shared env_secret os_environ !! k = Some v)
  ∧ (config env_shared env_secret os_environ !! k = None
     ↔ ∀ layer, layer ∈ layers → layer !! k = None).
Proof.
  intros layers. rewrite config_lookup. split.
  - intros i layer v Hi Hv Hlater.
    destruct i as [|[|[|i]]]; cbn in Hi; try done; injection Hi as <-.
    + rewrite (Hlater 2%nat os_environ), (Hlater 1%nat env_secret); done || lia.
    + rewrite (Hlater 2%nat os_environ); [by rewrite Hv|lia|done].
    + by rewrite Hv.
  - split.
    + intros Hnone layer Hl. subst layers.
      destruct (os_environ !! k) eqn:Eo; [done|].
      destruct (env_secret !! k) eqn:Es; [done|].
      repeat (apply elem_of_cons in Hl as [->|Hl]; [done|]).
      by apply elem_of_nil in Hl.
    + intros Hall. rewrite !Hall; [done|subst layers..].
      * by left.
      * right; by left.
      * right; right; by left.
Qed.

(** C8. Order the layers as built-in defaults, shared file, secret file,
    process environment.  A key defined in more than one of them (in layers
    [i < j], [j] the latest that defines it) resolves to the value of that
    latest layer.  The code merges the last three layers only; whatever the
    defaults are, they are never the latest layer of such a key. *)
Theorem config_latest_layer_wins
    (defaults env_shared env_secret os_environ : gmap string (option string))
    (k : string) (i j : nat) (earlier latest : gmap string (option string))
    (v : option string) :
  let layers := [defaults; env_shared; env_secret; os_environ] in
  (i < j)%nat →
  layers !! i = Some earlier → is_Some (earlier !! k) →
  layers !! j = Some latest → latest !! k = Some v →
  (∀ (j' : nat) later, (j < j')%nat → layers !! j' = Some later → later !! k = None) →
  config env_shared env_secret os_environ !! k = Some v.
Proof.
  intros layers Hij _ _ Hj Hv Hlater.
  destruct j as [|j]; [lia|]. cbn in Hj.
  apply (proj1 (config_three_layers env_shared env_secret os_environ k) j latest v Hj Hv).
  intros j' later Hjj' Hl. apply (Hlater (S j') later); [lia|done].
Qed.

(** ** The report pass (C4) *)

Lemma deleted_pass_run (airtable_df pcrs_df : DataFrame) h :
  PIVOT_COLUMN ∈ columns airtable_df →
  PIVOT_COLUMN ∈ columns pcrs_df →
  let deleted := mkDF (columns airtable_df)
                   (filter (is_missing pcrs_df) (rows airtable_df)) in
  synchronize_deleted_records airtable_df (PyFrame pcrs_df) h
  = (h ++ [Print MSyncDeleted; Print (MFoundDeleted (length (rows deleted)))]
       ++ (if df_empty deleted then [] else [Print (MFrame (df_head deleted))]),
     Ret tt).
Proof.
  intros Ha Hp deleted. unfold synchronize_deleted_records.
  rewrite (bind_ret_eq _ _ _ _ _ (print_eq _ _)).
  rewrite (bind_ret_eq _ _ _ _ _ (getitem_ok _ _ _ Ha)).
  rewrite (bind_ret_eq _ _ _ _ _ (frame_of_ok _ _)).
  rewrite (bind_ret_eq _ _ _ _ _ (getitem_ok _ _ _ Hp)).
  cbv zeta.
  assert (Hd : mask_df airtable_df
                 (invert (isin (column airtable_df PIVOT_COLUMN) (column pcrs_df PIVOT_COLUMN)))
               = deleted).
  { subst deleted. unfold mask_df, invert, isin, column. simpl.
    rewrite <- !list_fmap_compose.
    by rewrite (mask_rows_fmap (λ r, is_missing pcrs_df r)). }
  rewrite Hd. rewrite (bind_ret_eq _ _ _ _ _ (print_eq _ _)).
  destruct (df_empty deleted); cbn [negb].
  - by rewrite <- !app_assoc, app_nil_r.
  - unfold print, emit. by rewrite <- !app_assoc.
Qed.

(** The report pass sends nothing, whatever its arguments. *)
Lemma deleted_pass_no_request (airtable_df : DataFrame) (pcrs_df : pyval) h q :
  Request q ∉ emitted (synchronize_deleted_records airtable_df pcrs_df) h.
Proof.
  assert (Hs : satisfies (λ _ t, Forall (λ e, ∀ q, e ≠ Request q) t) (λ _, True)
                 (synchronize_deleted_records airtable_df pcrs_df)).
  { assert (Composable (λ (_ t : trace), Forall (λ e, ∀ q, e ≠ Request q) t)).
    { split; [by constructor|]. intros _ t1 t2 H1 H2. by apply Forall_app. }
    assert (Hp : ∀ m (h : trace), Forall (λ e, ∀ q, e ≠ Request q) [Print m])
      by (by repeat constructor).
    unfold synchronize_deleted_records.
    apply satisfies_bind with (λ _, True); [done|apply satisfies_print; auto|intros _ _].
    eapply satisfies_bind; [done|apply satisfies_getitem; auto|intros ? _].
    eapply satisfies_bind; [done|apply satisfies_frame_of; auto|intros ? _].
    eapply satisfies_bind; [done|apply satisfies_getitem; auto|intros ? _].
    cbv zeta.
    apply satisfies_bind with (λ _, True); [done|apply satisfies_print; auto|intros _ _].
    destruct (negb _); [apply satisfies_print; auto|by apply satisfies_ret]. }
  apply (satisfies_emitted _ _ _ h) in Hs. rewrite Forall_forall in Hs.
  intros Hq. by apply (Hs _ Hq q).
Qed.

(** ** A failed export fetch (C5) *)

Lemma get_csv_export_data_failed W h :
  status_code (export_http W h) ≠ 200 →
  ∃ s, get_csv_export_data W h = (h ++ [Request GET_export], Ret (PyStr s)).
Proof.
  intros Hs. unfold get_csv_export_data, mbind, M_bind, http_get_export.
  rewrite bool_decide_eq_false_2 by done. by eexists.
Qed.

(** Handed the error text, the diff pass prints its banner and raises at
    line 136; the other two passes raise at lines 193 and 242. *)
Lemma diff_pass_on_error_text W (airtable_df : DataFrame) (s : string) h :
  ∃ e, synchronize_different_records W airtable_df (PyStr s) h
       = (h ++ [Print MSyncDifferent], Raise e)
       ∧ (e = TypeError ∨ e = KeyError (Str PIVOT_COLUMN)).
Proof.
  unfold synchronize_different_records, mbind, M_bind, getitem. cbn [print emit].
  case_bool_decide; eexists; (split; [reflexivity|]); first [by left|by right].
Qed.

Lemma fetch_pages_quiet W (fuel : nat) offset acc :
  satisfies (λ _ t, Forall (λ e, ∃ params, e = Request (GET_table params)) t) (λ _, True)
    (fetch_pages W fuel offset acc).
Proof.
  revert offset acc. induction fuel as [|fuel IH]; intros offset acc h.
  - exists []. rewrite app_nil_r. by repeat split.
  - cbn [fetch_pages]. unfold mbind, M_bind, http_get_table.
    destruct (negb _).
    + eexists [_]. repeat split. repeat constructor. by eexists.
    + destruct (IH (page_offset (table_api W h (if truthy offset then offset else None)))
                   (acc ++ default [] (page_records
                      (table_api W h (if truthy offset then offset else None))))
                   (h ++ [Request (GET_table (if truthy offset then offset else None))]))
        as (t & E & Ht & _).
      eexists (_ :: t). rewrite <- app_assoc in E. repeat split; [exact E|].
      constructor; [by eexists|done].
Qed.

Lemma get_airtable_data_quiet W (fuel : nat) h :
  ∃ t, (get_airtable_data W fuel h).1 = h ++ t
       ∧ writes_of t = []
       ∧ ∀ m, Print m ∈ t → ∃ n, m = MFoundAirtable n.
Proof.
  destruct (fetch_pages_quiet W fuel None [] h) as (t & E & Ht & _).
  assert (Hw : writes_of t = []).
  { clear E. induction Ht as [|e t [params ->] _ IH]; [done|]. exact IH. }
  assert (Hp : ∀ m, Print m ∉ t).
  { intros m Hm. rewrite Forall_forall in Ht. by destruct (Ht _ Hm). }
  unfold get_airtable_data, mbind, M_bind.
  destruct (fetch_pages W fuel None [] h) as [h' [r| | |]]; cbn [fst snd] in *; subst h';
    try (exists t; repeat split; [done|]; intros m Hm; by destruct (Hp m)).
  exists (t ++ [Print (MFoundAirtable (length r))]). rewrite app_assoc.
  repeat split.
  - by rewrite writes_of_app, Hw.
  - intros m [Hm|Hm%list_elem_of_singleton]%elem_of_app; [by destruct (Hp m)|].
    injection Hm as ->. by eexists.
Qed.

(** What the run does when the export answers with an error status: the
    orchestrator goes on to the diff pass, which prints its banner and is
    stopped by an exception; no write request is sent and the other two
    passes are not reached. *)
Theorem failed_export_stops_in_first_pass W (fuel n : nat) (h : trace) :
  (∀ h', status_code (export_http W h') ≠ 200) →
  (n < fuel)%nat → last_page W (h ++ [Print MStep1]) n = true →
  let run := main W fuel in
  (result run h = Raise TypeError ∨ result run h = Raise (KeyError (Str PIVOT_COLUMN)))
  ∧ writes_of (emitted run h) = []
  ∧ Print MSyncDifferent ∈ emitted run h
  ∧ (Print MSyncMissing ∉ emitted run h)
  ∧ (Print MSyncDeleted ∉ emitted run h).
Proof.
  intros Hfail Hfuel Hlast run.
  destruct (get_airtable_data_returns W (h ++ [Print MStep1]) n fuel Hlast Hfuel)
    as [df Hdf].
  destruct (get_airtable_data_quiet W fuel (h ++ [Print MStep1])) as (t & Et & Hw & Hp).
  assert (Efetch : get_airtable_data W fuel (h ++ [Print MStep1])
                   = (h ++ [Print MStep1] ++ t, Ret df)).
  { unfold result in Hdf. rewrite <- app_assoc in Et.
    destruct (get_airtable_data W fuel _) as [h' o]. cbn in *. by subst. }
  destruct (get_csv_export_data_failed W
              ((h ++ [Print MStep1] ++ t) ++ [Print MBlank] ++ [Print MStep2])
              (Hfail _)) as [s Es].
  destruct (diff_pass_on_error_text W df s
              ((((h ++ [Print MStep1] ++ t) ++ [Print MBlank] ++ [Print MStep2])
                  ++ [Request GET_export]) ++ [Print MBlank] ++ [Print MStep3]))
    as (e & Ed & He).
  assert (Erun : run h = (h ++ ([Print MStep1] ++ t ++
      [Print MBlank; Print MStep2; Request GET_export; Print MBlank; Print MStep3;
       Print MSyncDifferent]), Raise e)).
  { subst run. unfold main.
    rewrite (bind_ret_eq _ _ _ _ _ (print_eq _ _)).
    rewrite (bind_ret_eq _ _ _ _ _ Efetch).
    rewrite (bind_ret_eq _ _ _ _ _ (print_eq _ _)).
    rewrite (bind_ret_eq _ _ _ _ _ (print_eq _ _)).
    rewrite <- !app_assoc in Es. rewrite <- !app_assoc.
    rewrite (bind_ret_eq _ _ _ _ _ Es).
    rewrite (bind_ret_eq _ _ _ _ _ (print_eq _ _)).
    rewrite (bind_ret_eq _ _ _ _ _ (print_eq _ _)).
    rewrite <- !app_assoc in Ed. rewrite <- !app_assoc.
    unfold mbind at 1, M_bind at 1. by rewrite Ed. }
  rewrite (result_eq _ _ _ _ Erun), (emitted_eq _ _ _ _ Erun).
  split; [destruct He as [-> | ->]; first [by left|by right]|].
  split; [by rewrite !writes_of_app, Hw|].
  split; [do 2 (apply elem_of_app; right); by repeat constructor|].
  split.
  - intros [Hm|[Hm|Hm]%elem_of_app]%elem_of_app.
    + by apply list_elem_of_singleton in Hm.
    + by destruct (Hp _ Hm).
    + repeat (apply elem_of_cons in Hm as [Hm|Hm]; [done|]). by apply elem_of_nil in Hm.
  - intros [Hm|[Hm|Hm]%elem_of_app]%elem_of_app.
    + by apply list_elem_of_singleton in Hm.
    + by destruct (Hp _ Hm).
    + repeat (apply elem_of_cons in Hm as [Hm|Hm]; [done|]). by apply elem_of_nil in Hm.
Qed.

(** * Further properties *)

(** ** The diff pass: which pairs are updated *)

(** X1. Under the preconditions of the diff pass the updates it attempts,
    in the order of the remote table, are exactly those of the matched pairs
    with a compared field that is not [eq].  After the banner and their
    count they go out one by one, each followed by its verdict, up to the
    first one whose export values hold an empty cell, where the pass stops
    with InvalidJSONError; when no compared cell of the export is empty,
    every such pair gets its update and the pass ends normally. *)
Theorem diff_updates_exactly_differing_pairs W (airtable_df pcrs_df : DataFrame)
    (h : trace) :
  diff_ready airtable_df pcrs_df →
  let run := synchronize_different_records W airtable_df (PyFrame pcrs_df) in
  let planned := planned_updates airtable_df pcrs_df in
  let head := [Print MSyncDifferent; Print (MFoundDifferent (length planned))] in
  (∀ q, q ∈ planned
        ↔ ∃ r re, r ∈ rows airtable_df ∧ re ∈ rows pcrs_df
                  ∧ cell_same (r @@ PIVOT_COLUMN) (re @@ PIVOT_COLUMN) = true
                  ∧ differs r re = true
                  ∧ q = update_of r re)
  ∧ emitted run h = head ++ transcript W (h ++ head) (sent planned)
  ∧ writes_of (emitted run h) = sent planned
  ∧ result run h = refusal planned
  ∧ ((∀ re c, re ∈ rows pcrs_df → c ∈ COLUMNS_TO_CHECK → isnull (re @@ c) = false) →
     sent planned = planned ∧ refusal planned = Ret tt).
Proof.
  intros Hready run planned head.
  destruct (synchronize_different_records_trace W _ _ h Hready) as (t & E & Hw & Ht).
  destruct Hready as (_ & _ & _ & Hup & _).
  subst run. rewrite (emitted_eq _ _ _ _ E), (result_eq _ _ _ _ E).
  split_and!; [|by rewrite Ht| |done|].
  - intros q. by apply planned_updates_pairs.
  - by rewrite writes_of_app.
  - intros Hfilled. apply sent_all. intros q. by apply planned_updates_encodable.
Qed.

(** X2. A writing pass prints its banner and then the count of the records
    it found; it never sends more requests than that count, and it sends
    exactly that many when it runs to its end. *)
Theorem printed_count_is_number_of_requests W (airtable_df pcrs_df : DataFrame)
    (h : trace) :
  let diff := synchronize_different_records W airtable_df (PyFrame pcrs_df) in
  let ins := synchronize_missing_records W airtable_df (PyFrame pcrs_df) in
  (diff_ready airtable_df pcrs_df →
   ∃ n, take 2 (emitted diff h) = [Print MSyncDifferent; Print (MFoundDifferent n)]
        ∧ (length (writes_of (emitted diff h)) ≤ n)%nat
        ∧ (result diff h = Ret tt → length (writes_of (emitted diff h)) = n))
  ∧ (PIVOT_COLUMN ∈ columns airtable_df → PIVOT_COLUMN ∈ columns pcrs_df →
     ∃ n, take 2 (emitted ins h) = [Print MSyncMissing; Print (MFoundMissing n)]
          ∧ (length (writes_of (emitted ins h)) ≤ n)%nat
          ∧ (result ins h = Ret tt → length (writes_of (emitted ins h)) = n)).
Proof.
  intros diff ins.
  assert (Hwt : ∀ m1 m2 (t : trace), writes_of ([Print m1; Print m2] ++ t) = writes_of t)
    by done.
  split.
  - intros Hready.
    destruct (synchronize_different_records_trace W _ _ h Hready) as (t & E & Hw & _).
    exists (length (planned_updates airtable_df pcrs_df)).
    subst diff. rewrite (emitted_eq _ _ _ _ E), (result_eq _ _ _ _ E), Hwt, Hw.
    split_and!; [done| |].
    + apply prefix_length, sent_prefix.
    + intros Hret. by rewrite (refusal_ret _ Hret).
  - intros Ha Hp.
    destruct (synchronize_missing_records_trace W _ _ h Ha Hp) as (t & o & E & Hpre & Hall).
    exists (length (filter (is_missing airtable_df) (rows pcrs_df))).
    subst ins. rewrite (emitted_eq _ _ _ _ E), (result_eq _ _ _ _ E), Hwt.
    split_and!; [done| |].
    + apply prefix_length in Hpre. by rewrite length_fmap in Hpre.
    + intros Hret. by rewrite (Hall Hret), length_fmap.
Qed.

(** ** The insert pass *)

(** Every write request of the insert pass creates one record from an export
    row whose pivot the remote table lacks. *)
Lemma missing_pass_creates_missing W (airtable_df : DataFrame) (pcrs_df : pyval) :
  satisfies (writes_all (creates_missing airtable_df pcrs_df)) (λ _, True)
    (synchronize_missing_records W airtable_df pcrs_df).
Proof.
  unfold synchronize_missing_records.
  after satisfies_print; intros _ _.
  after satisfies_frame_of; intros export ->.
  after satisfies_getitem; intros ? [Hp ->].
  after satisfies_getitem; intros ? [Ha ->].
  cbv zeta.
  after satisfies_print; intros _ _.
  apply satisfies_for_each; [apply _|]. intros r Hr.
  assert (Hmiss : r ∈ rows export ∧ is_missing airtable_df r = true).
  { unfold mask_df, invert, isin, column in Hr. simpl in Hr.
    rewrite <- !list_fmap_compose in Hr.
    rewrite (mask_rows_fmap (λ r, is_missing airtable_df r)) in Hr.
    apply list_elem_of_filter in Hr as [Hm Hr]. split; [done|]. by apply Is_true_true. }
  unfold create_record.
  after satisfies_check_columns; intros _ _.
  cbv zeta.
  after satisfies_print; intros _ _.
  eapply satisfies_bind; [apply _| |intros resp _].
  - apply satisfies_write_all. exists export, r. by destruct Hmiss.
  - destruct (negb _).
    + after satisfies_print; intros _ _.
      destruct (json resp); [apply satisfies_print; auto with trace|].
      apply satisfies_raise; apply _.
    + apply satisfies_print; auto with trace.
Qed.

(** X3. The insert pass never creates a record for a pivot that the remote
    table already has: each of its write requests is a POST of one record
    built from an export row whose pivot is in no remote row; it sends no
    PATCH. *)
Theorem insert_creates_only_missing W (airtable_df : DataFrame) (pcrs_df : pyval)
    (h : trace) (q : request) :
  q ∈ writes_of (emitted (synchronize_missing_records W airtable_df pcrs_df) h) →
  ∃ export r,
    pcrs_df = PyFrame export ∧ r ∈ rows export
    ∧ existsb (cell_same (r @@ PIVOT_COLUMN)) (column airtable_df PIVOT_COLUMN) = false
    ∧ q = POST [new_record r].
Proof.
  intros Hq.
  pose proof (satisfies_emitted _ _ _ h (missing_pass_creates_missing W airtable_df pcrs_df))
    as Hall.
  unfold writes_all in Hall. rewrite Forall_forall in Hall.
  destruct (Hall q Hq) as (export & r & -> & Hr & Hm & ->).
  exists export, r. repeat split; [done|]. by apply negb_true_iff in Hm.
Qed.

(** What the insert pass can send, whatever its tables: a prefix of the
    creates of the missing export rows, and all of them when it ends
    normally. *)
Lemma synchronize_missing_records_writes W (airtable_df pcrs_df : DataFrame) h :
  let run := synchronize_missing_records W airtable_df (PyFrame pcrs_df) in
  let creates :=
    (λ r, POST [new_record r]) <$> filter (is_missing airtable_df) (rows pcrs_df) in
  writes_of (emitted run h) `prefix_of` creates
  ∧ (result run h = Ret tt → writes_of (emitted run h) = creates).
Proof.
  intros run creates.
  destruct (decide (PIVOT_COLUMN ∈ columns pcrs_df)) as [Hp|Hp];
    [destruct (decide (PIVOT_COLUMN ∈ columns airtable_df)) as [Ha|Ha]|].
  - destruct (synchronize_missing_records_trace W _ _ h Ha Hp) as (t & o & E & Hpre & Hall).
    subst run. by rewrite (emitted_eq _ _ _ _ E), (result_eq _ _ _ _ E).
  - assert (E : run h = (h ++ [Print MSyncMissing], Raise (KeyError (Str PIVOT_COLUMN)))).
    { subst run. unfold synchronize_missing_records.
      rewrite (bind_ret_eq _ _ _ _ _ (print_eq _ _)).
      rewrite (bind_ret_eq _ _ _ _ _ (frame_of_ok _ _)).
      rewrite (bind_ret_eq _ _ _ _ _ (getitem_ok _ _ _ Hp)).
      apply raise_bind_eq. unfold getitem. by rewrite bool_decide_eq_false_2. }
    rewrite (emitted_eq _ _ _ _ E), (result_eq _ _ _ _ E). split; [apply prefix_nil|done].
  - assert (E : run h = (h ++ [Print MSyncMissing], Raise (KeyError (Str PIVOT_COLUMN)))).
    { subst run. unfold synchronize_missing_records.
      rewrite (bind_ret_eq _ _ _ _ _ (print_eq _ _)).
      rewrite (bind_ret_eq _ _ _ _ _ (frame_of_ok _ _)).
      apply raise_bind_eq. unfold getitem. by rewrite bool_decide_eq_false_2. }
    rewrite (emitted_eq _ _ _ _ E), (result_eq _ _ _ _ E). split; [apply prefix_nil|done].
Qed.

(** X4. A pivot that the remote table lacks is never created more often
    than the export has rows that carry it, and exactly once per such row
    when the pass runs to its end: a pivot repeated in the export is then
    created repeatedly. *)
Theorem missing_pivot_created_per_row W (airtable_df pcrs_df : DataFrame)
    (v : cell) (h : trace) :
  existsb (cell_same v) (column airtable_df PIVOT_COLUMN) = false →
  let run := synchronize_missing_records W airtable_df (PyFrame pcrs_df) in
  let created := filter (creates_for v) (writes_of (emitted run h)) in
  let carrying := filter (λ r, cell_same (r @@ PIVOT_COLUMN) v) (rows pcrs_df) in
  (length created ≤ length carrying)%nat
  ∧ (result run h = Ret tt → length created = length carrying).
Proof.
  intros Hv run created carrying.
  destruct (synchronize_missing_records_writes W airtable_df pcrs_df h) as [Hpre Hall].
  fold run in Hpre, Hall.
  assert (Hcount : length (filter (creates_for v)
                     ((λ r, POST [new_record r])
                        <$> filter (is_missing airtable_df) (rows pcrs_df)))
                   = length carrying).
  { rewrite creates_for_filter, length_fmap.
    f_equal. apply filter_all. intros r [Hs _]%list_elem_of_filter.
    apply Is_true_true in Hs. apply Is_true_true, negb_true_iff.
    destruct (existsb (cell_same (r @@ PIVOT_COLUMN)) _) eqn:Ex; [|done].
    apply existsb_same in Ex as (z & Hz & Hrz).
    rewrite <- Hv. symmetry. apply existsb_same. exists z. split; [done|].
    rewrite cell_same_sym in Hs. by apply (cell_same_trans _ _ _ Hs). }
  split.
  - destruct Hpre as [k Hk]. rewrite Hk, filter_app, length_app in Hcount.
    subst created. lia.
  - intros Hret. subst created. by rewrite (Hall Hret).
Qed.

(** ** Missing columns *)

Lemma check_columns_fail (have : gset string) (cols : list string) (c : string) :
  c ∈ cols → c ∉ have →
  ∃ c', c' ∈ cols ∧ (c' ∉ have) ∧ check_columns have cols = raise (KeyError (Str c')).
Proof.
  intros Hc Hn. unfold check_columns.
  destruct (find _ cols) as [c'|] eqn:E.
  - apply find_some in E as [Hin Hc']. exists c'. split; [by apply list_elem_of_In|].
    split; [|done]. apply negb_true_iff in Hc'. by apply bool_decide_eq_false in Hc'.
  - apply list_elem_of_In in Hc. apply (find_none _ _ E) in Hc.
    apply negb_false_iff, bool_decide_eq_true in Hc. done.
Qed.

(** X5. When the export lacks a compared column the insert pass notices it
    only inside its loop: with nothing to create it ends normally, otherwise
    it raises KeyError at the first row, after the count message and before
    any request. *)
Theorem insert_with_missing_compared_column W (airtable_df pcrs_df : DataFrame)
    (c : string) (h : trace) :
  PIVOT_COLUMN ∈ columns airtable_df →
  PIVOT_COLUMN ∈ columns pcrs_df →
  c ∈ COLUMNS_TO_CHECK → c ∉ columns pcrs_df →
  let run := synchronize_missing_records W airtable_df (PyFrame pcrs_df) in
  let missing := filter (is_missing airtable_df) (rows pcrs_df) in
  emitted run h = [Print MSyncMissing; Print (MFoundMissing (length missing))]
  ∧ (missing = [] → result run h = Ret tt)
  ∧ (missing ≠ [] →
       ∃ c', c' ∈ COLUMNS_TO_CHECK ∧ (c' ∉ columns pcrs_df)
             ∧ result run h = Raise (KeyError (Str c'))).
Proof.
  intros Ha Hp Hc Hn run missing.
  destruct (check_columns_fail (columns pcrs_df) COLUMNS_TO_CHECK c Hc Hn)
    as (c' & Hc' & Hn' & Efail).
  assert (E : run h
    = (h ++ [Print MSyncMissing; Print (MFoundMissing (length missing))],
       match missing with [] => Ret tt | _ => Raise (KeyError (Str c')) end)).
  { subst run. unfold synchronize_missing_records.
    rewrite (bind_ret_eq _ _ _ _ _ (print_eq _ _)).
    rewrite (bind_ret_eq _ _ _ _ _ (frame_of_ok _ _)).
    rewrite (bind_ret_eq _ _ _ _ _ (getitem_ok _ _ _ Hp)).
    rewrite (bind_ret_eq _ _ _ _ _ (getitem_ok _ _ _ Ha)).
    unfold mask_df, invert, isin, column. simpl.
    rewrite <- !list_fmap_compose.
    rewrite (mask_rows_fmap (λ r, is_missing airtable_df r)).
    rewrite (bind_ret_eq _ _ _ _ _ (print_eq _ _)). fold missing.
    rewrite <- app_assoc. cbn [app].
    destruct missing as [|r rest]; [done|].
    cbn [for_each]. apply raise_bind_eq. unfold create_record.
    apply raise_bind_eq. by rewrite Efail. }
  rewrite (emitted_eq _ _ _ _ E), (result_eq _ _ _ _ E).
  split; [done|]. split.
  - by intros ->.
  - intros Hne. exists c'. repeat split; [done..|]. by destruct missing.
Qed.

(** X6. A compared column that is not a column of both tables, or that is
    the pivot column itself (which [set_index] takes out of the columns),
    stops the diff pass with KeyError right after its banner: before the
    count message and before any request, also when nothing differs. *)
Theorem diff_with_missing_compared_column W (airtable_df pcrs_df : DataFrame)
    (c : string) (h : trace) :
  PIVOT_COLUMN ∈ columns airtable_df →
  PIVOT_COLUMN ∈ columns pcrs_df →
  unique_labels (column airtable_df PIVOT_COLUMN) = true →
  unique_labels (column pcrs_df PIVOT_COLUMN) = true →
  c ∈ COLUMNS_TO_CHECK →
  c ∉ columns airtable_df ∨ c ∉ columns pcrs_df ∨ c = PIVOT_COLUMN →
  ∃ c', c' ∈ COLUMNS_TO_CHECK
        ∧ (c' ∉ columns airtable_df ∨ c' ∉ columns pcrs_df ∨ c' = PIVOT_COLUMN)
        ∧ synchronize_different_records W airtable_df (PyFrame pcrs_df) h
          = (h ++ [Print MSyncDifferent], Raise (KeyError (Str c'))).
Proof.
  intros Ha Hp Hua Hup Hc Hbad.
  assert (Hout : ∀ (X : gset string) c', c' ∉ X ∖ {[PIVOT_COLUMN]} → c' ∉ X ∨ c' = PIVOT_COLUMN).
  { intros X c' Hn. destruct (decide (c' = PIVOT_COLUMN)); [by right|left].
    intros HX. apply Hn, elem_of_difference. split; [done|]. by intros ?%elem_of_singleton. }
  unfold synchronize_different_records.
  rewrite (bind_ret_eq _ _ _ _ _ (print_eq _ _)).
  rewrite (bind_ret_eq _ _ _ _ _ (getitem_ok _ _ _ Ha)).
  rewrite (bind_ret_eq _ _ _ _ _ (frame_of_ok _ _)).
  rewrite (bind_ret_eq _ _ _ _ _ (getitem_ok _ _ _ Hp)).
  cbv zeta. rewrite (join_aligned _ _ Hua Hup). unfold lift_align.
  set (A := mkIX (columns airtable_df ∖ {[PIVOT_COLUMN]}) _).
  set (E := mkIX (columns pcrs_df ∖ {[PIVOT_COLUMN]}) _).
  rewrite (bind_ret_eq _ _ _ (h ++ [Print MSyncDifferent]) (A, E)) by done.
  cbn [icolumns A E].
  destruct (find (λ c, negb (bool_decide (c ∈ columns airtable_df ∖ {[PIVOT_COLUMN]})))
              COLUMNS_TO_CHECK) as [c1|] eqn:F1.
  - assert (Hc1 := F1). apply find_some in Hc1 as [Hin Hn1].
    apply negb_true_iff, bool_decide_eq_false in Hn1.
    exists c1. split; [by apply list_elem_of_In|]. split.
    + destruct (Hout _ _ Hn1); [by left|by right; right].
    + apply raise_bind_eq. unfold check_columns. by rewrite F1.
  - assert (Hall : ∀ c0, c0 ∈ COLUMNS_TO_CHECK → c0 ∈ columns airtable_df ∖ {[PIVOT_COLUMN]}).
    { intros c0 Hc0%list_elem_of_In. apply (find_none _ _ F1) in Hc0.
      by apply negb_false_iff, bool_decide_eq_true in Hc0. }
    assert (Hce : c ∉ columns pcrs_df ∖ {[PIVOT_COLUMN]}).
    { apply Hall, elem_of_difference in Hc as [Hca Hcp].
      intros [Hce Hcp']%elem_of_difference.
      destruct Hbad as [Hb|[Hb|Hb]]; [done..|]. apply Hcp. by apply elem_of_singleton. }
    destruct (check_columns_fail (columns pcrs_df ∖ {[PIVOT_COLUMN]}) COLUMNS_TO_CHECK c)
      as (c' & Hc' & Hn' & Efail); [done|done|].
    exists c'. split; [done|]. split.
    + destruct (Hout _ _ Hn'); [by right; left|by right; right].
    + rewrite (bind_ret_eq _ _ _ (h ++ [Print MSyncDifferent]) tt)
        by (by rewrite check_columns_ok).
      apply raise_bind_eq. by rewrite Efail.
Qed.

(** ** The report pass *)

(** X7. With the pivot column in both tables the report pass ends normally
    and prints, after its banner, the number of remote rows whose pivot the
    export lacks and then one frame with the first five of them in table
    order; with no such row it prints no frame. *)
Theorem report_counts_all_and_shows_five (airtable_df pcrs_df : DataFrame) (h : trace) :
  PIVOT_COLUMN ∈ columns airtable_df →
  PIVOT_COLUMN ∈ columns pcrs_df →
  let run := synchronize_deleted_records airtable_df (PyFrame pcrs_df) in
  let deleted := deleted_rows airtable_df pcrs_df in
  result run h = Ret tt
  ∧ emitted run h
    = [Print MSyncDeleted; Print (MFoundDeleted (length deleted))]
        ++ match deleted with
           | [] => []
           | _ => [Print (MFrame (mkDF (columns airtable_df) (take 5 deleted)))]
           end.
Proof.
  intros Ha Hp run deleted.
  pose proof (deleted_pass_run airtable_df pcrs_df h Ha Hp) as E. cbv zeta in E.
  fold (deleted_rows airtable_df pcrs_df) in E. fold deleted in E.
  subst run. rewrite (result_eq _ _ _ _ E), (emitted_eq _ _ _ _ E).
  split; [done|]. f_equal. unfold df_empty, df_head. cbn [rows columns].
  rewrite (bool_decide_eq_false_2 (columns airtable_df = ∅)), orb_false_r.
  - by destruct deleted.
  - intros Hempty. rewrite Hempty in Ha. by apply not_elem_of_empty in Ha.
Qed.

(** X8. The report pass sends no request of any kind, whatever tables or
    error text it is given: it cannot change the remote table. *)
Theorem report_sends_no_request (airtable_df : DataFrame) (pcrs_df : pyval)
    (h : trace) (q : request) :
  Request q ∉ emitted (synchronize_deleted_records airtable_df pcrs_df) h.
Proof. apply deleted_pass_no_request. Qed.

(** ** Listing requests and the table built from them *)

Lemma loop_state_requests W (h0 : trace) (n : nat) :
  (∀ i, (i < n)%nat → last_page W h0 i = false) →
  (loop_state W h0 (S n)).1 = h0 ++ (listing_request W h0 <$> seq 0 (S n)).
Proof.
  induction n as [|n IH]; intros Hmore; [done|].
  rewrite seq_S, fmap_app, app_assoc, <- IH by (intros i Hi; apply Hmore; lia).
  change (loop_state W h0 (S (S n))).1 with
    ((loop_state W h0 (S n)).1
       ++ [Request (GET_table (if truthy (loop_state W h0 (S n)).2
                               then (loop_state W h0 (S n)).2 else None))]).
  f_equal. cbn [fmap list_fmap Nat.add]. unfold listing_request. do 3 f_equal.
  change (loop_state W h0 (S n)).2 with (page_offset (nth_page W h0 n)).
  specialize (Hmore n ltac:(lia)). unfold last_page in Hmore.
  apply negb_false_iff in Hmore. by rewrite Hmore.
Qed.

(** The run of [get_airtable_data] over a finite page sequence. *)
Lemma get_airtable_data_trace W (h0 : trace) (N fuel : nat) :
  (∀ i, (i < N)%nat → last_page W h0 i = false) →
  last_page W h0 N = true →
  (N < fuel)%nat →
  let records := concat ((λ i, page_rows (nth_page W h0 i)) <$> seq 0 (S N)) in
  get_airtable_data W fuel h0
  = (h0 ++ (listing_request W h0 <$> seq 0 (S N))
        ++ [Print (MFoundAirtable (length records))],
     Ret (remote_table records)).
Proof.
  intros Hmore Hlast Hfuel records.
  assert (Hrun := fetch_pages_run W h0 N 0 fuel [] Hfuel
                    (λ i Hi, Hmore i (proj2 Hi)) Hlast).
  change (loop_state W h0 0) with (h0, @None string) in Hrun.
  cbn [fst snd app Nat.add] in Hrun.
  unfold get_airtable_data, mbind, M_bind. rewrite Hrun.
  cbn [print emit mret M_ret]. rewrite (loop_state_requests W h0 N Hmore).
  by rewrite <- app_assoc.
Qed.

(** X9. The listing requests of a run: the first carries no offset, each
    further one the token of the page before it, and none is sent after the
    first page without a token; the count message follows them. *)
Theorem listing_requests_chain_the_tokens W (h0 : trace) (N fuel : nat) :
  (∀ i, (i < N)%nat → last_page W h0 i = false) →
  last_page W h0 N = true →
  (N < fuel)%nat →
  emitted (get_airtable_data W fuel) h0
  = (listing_request W h0 <$> seq 0 (S N))
      ++ [Print (MFoundAirtable
                   (length (concat ((λ i, page_rows (nth_page W h0 i)) <$> seq 0 (S N)))))].
Proof.
  intros Hmore Hlast Hfuel.
  by rewrite (emitted_eq _ _ _ _ (get_airtable_data_trace W h0 N fuel Hmore Hlast Hfuel)).
Qed.

Lemma record_data_id (record : api_record) :
  record_data record @@ "airtable_record_id" = id_cell (rec_id record).
Proof. unfold record_data, cell_at. by rewrite lookup_insert_eq. Qed.

Lemma record_data_field (record : api_record) (c : string) :
  c ≠ "airtable_record_id" →
  record_data record @@ c = default ∅ (rec_fields record) @@ c.
Proof. intros Hc. unfold record_data, cell_at. by rewrite lookup_insert_ne. Qed.

Lemma remote_table_columns (records : list api_record) (c : string) :
  c ∈ columns (remote_table records)
  ↔ ∃ record, record ∈ records
      ∧ (c = "airtable_record_id" ∨ is_Some (default ∅ (rec_fields record) !! c)).
Proof.
  unfold remote_table, DataFrame_of_dicts. cbn [columns].
  rewrite elem_of_union_list. split.
  - intros (X & HX & Hc). apply list_elem_of_fmap in HX as (r & -> & Hr).
    apply list_elem_of_fmap in Hr as (record & -> & Hrec).
    exists record. split; [done|]. unfold record_data in Hc.
    rewrite dom_insert_L in Hc. apply elem_of_union in Hc as [Hc|Hc].
    + left. by apply elem_of_singleton in Hc.
    + right. by apply elem_of_dom in Hc.
  - intros (record & Hrec & Hc). exists (dom (record_data record)). split.
    + apply list_elem_of_fmap_2. by apply list_elem_of_fmap_2.
    + unfold record_data. rewrite dom_insert_L. apply elem_of_union.
      destruct Hc as [->|Hc]; [left; by apply elem_of_singleton|right].
      by apply elem_of_dom.
Qed.

(** X10. The table that [get_airtable_data] returns holds, for every listed
    record in order, its identifier under "airtable_record_id" (missing when
    the record has none, and in place of a field of that name) and its
    fields unchanged; its columns are that one and the field names that
    occur, and a listing without records gives a table without columns. *)
Theorem fetched_table_carries_record_ids W (h0 : trace) (N fuel : nat) :
  (∀ i, (i < N)%nat → last_page W h0 i = false) →
  last_page W h0 N = true →
  (N < fuel)%nat →
  let records := concat ((λ i, page_rows (nth_page W h0 i)) <$> seq 0 (S N)) in
  ∃ df, result (get_airtable_data W fuel) h0 = Ret df
    ∧ column df "airtable_record_id" = (λ record, id_cell (rec_id record)) <$> records
    ∧ (∀ c, c ≠ "airtable_record_id" →
         column df c = (λ record, default ∅ (rec_fields record) @@ c) <$> records)
    ∧ (∀ c, c ∈ columns df
         ↔ ∃ record, record ∈ records
             ∧ (c = "airtable_record_id" ∨ is_Some (default ∅ (rec_fields record) !! c)))
    ∧ (records = [] → columns df = ∅).
Proof.
  intros Hmore Hlast Hfuel records. exists (remote_table records).
  rewrite (result_eq _ _ _ _ (get_airtable_data_trace W h0 N fuel Hmore Hlast Hfuel)).
  fold records. split; [done|]. split_and!.
  - unfold column, remote_table, DataFrame_of_dicts. cbn [rows].
    rewrite <- list_fmap_compose.
    apply list_fmap_ext. intros i record _. apply record_data_id.
  - intros c Hc. unfold column, remote_table, DataFrame_of_dicts. cbn [rows].
    rewrite <- list_fmap_compose.
    apply list_fmap_ext. intros i record _. by apply record_data_field.
  - intros c. apply remote_table_columns.
  - by intros ->.
Qed.

(** ** The whole run *)

Lemma writes_of_listing W (h0 : trace) (l : list nat) :
  writes_of (listing_request W h0 <$> l) = [].
Proof. induction l as [|i l IH]; [done|]. by rewrite fmap_cons. Qed.

Lemma concat_nil {A} (g : nat → list A) (l : list nat) :
  (∀ i, i ∈ l → g i = []) → concat (g <$> l) = [].
Proof.
  induction l as [|i l IH]; intros Hg; [done|].
  rewrite fmap_cons. cbn [concat]. rewrite (Hg i) by left.
  apply IH. intros j Hj. apply Hg. by right.
Qed.

Lemma get_csv_export_data_run W h :
  ∃ t v, get_csv_export_data W h = (h ++ t, Ret v) ∧ writes_of t = [].
Proof.
  unfold get_csv_export_data, mbind, M_bind, http_get_export.
  destruct (negb _); cbn [print emit mret M_ret].
  - by eexists [_], _.
  - eexists [_; _], _. by rewrite <- app_assoc.
Qed.


Lemma diff_pass_without_pivot W (airtable_df : DataFrame) (pcrs_df : pyval) h :
  PIVOT_COLUMN ∉ columns airtable_df →
  synchronize_different_records W airtable_df pcrs_df h
  = (h ++ [Print MSyncDifferent], Raise (KeyError (Str PIVOT_COLUMN))).
Proof.
  intros Hn. unfold synchronize_different_records.
  rewrite (bind_ret_eq _ _ _ _ _ (print_eq _ _)).
  apply raise_bind_eq. unfold getitem. by rewrite bool_decide_eq_false_2.
Qed.

(** X11. When Airtable lists no record at all, the fetched table has no
    columns and the run stops in the diff pass with KeyError of the pivot
    column, whatever the export returns: nothing is written, so the export
    rows are not created either. *)
Theorem empty_listing_stops_the_run W (h : trace) (N fuel : nat) :
  let h1 := h ++ [Print MStep1] in
  (∀ i, (i < N)%nat → last_page W h1 i = false) →
  last_page W h1 N = true →
  (N < fuel)%nat →
  (∀ i, (i ≤ N)%nat → page_rows (nth_page W h1 i) = []) →
  result (main W fuel) h = Raise (KeyError (Str PIVOT_COLUMN))
  ∧ writes_of (emitted (main W fuel) h) = [].
Proof.
  intros h1 Hmore Hlast Hfuel Hempty.
  pose proof (get_airtable_data_trace W h1 N fuel Hmore Hlast Hfuel) as Efetch.
  cbv zeta in Efetch.
  rewrite (concat_nil (λ i, page_rows (nth_page W h1 i))) in Efetch.
  2:{ intros i Hi%elem_of_seq. apply Hempty. lia. }
  set (h2 := h1 ++ _) in Efetch.
  destruct (get_csv_export_data_run W ((h2 ++ [Print MBlank]) ++ [Print MStep2]))
    as (t & v & Ecsv & Hwt).
  assert (E : main W fuel h
    = (((((h2 ++ [Print MBlank]) ++ [Print MStep2]) ++ t) ++ [Print MBlank])
         ++ [Print MStep3] ++ [Print MSyncDifferent],
       Raise (KeyError (Str PIVOT_COLUMN)))).
  { unfold main.
    rewrite (bind_ret_eq _ _ _ _ _ (print_eq _ _)).
    rewrite (bind_ret_eq _ _ _ _ _ Efetch).
    rewrite (bind_ret_eq _ _ _ _ _ (print_eq _ _)).
    rewrite (bind_ret_eq _ _ _ _ _ (print_eq _ _)).
    rewrite (bind_ret_eq _ _ _ _ _ Ecsv).
    rewrite (bind_ret_eq _ _ _ _ _ (print_eq _ _)).
    rewrite (bind_ret_eq _ _ _ _ _ (print_eq _ _)).
    apply raise_bind_eq. rewrite diff_pass_without_pivot by apply not_elem_of_empty.
    by rewrite <- !app_assoc. }
  subst h2 h1. rewrite <- !app_assoc in E.
  rewrite (result_eq _ _ _ _ E), (emitted_eq _ _ _ _ E).
  split; [done|]. by rewrite !writes_of_app, writes_of_listing, Hwt.
Qed.


(** ** Verdict messages *)

#[local] Instance verdicts_follow_composable W : Composable (verdicts_follow W).
Proof.
  split; [done|].
  intros h t1. revert h. induction t1 as [|e t1 IH]; intros h t2 H1 H2.
  - by rewrite app_nil_r in H2.
  - destruct H1 as [He H1]. split.
    + destruct e as [m|q]; [done|].
      pose proof (f_equal length He) as Hlen. rewrite length_take in Hlen.
      rewrite take_app_le by lia. exact He.
    + apply IH; [done|]. by rewrite <- app_assoc.
Qed.

Lemma verdicts_follow_print W (m : message) h : verdicts_follow W h [Print m].
Proof. done. Qed.

#[local] Hint Resolve verdicts_follow_print : trace.






(** ** Settings *)

Lemma split_on_cons (sep : Ascii.ascii) (s : string) :
  ∃ piece pieces, split_on sep s = piece :: pieces.
Proof.
  destruct s as [|c s]; [by eexists _, _|]. cbn [split_on].
  destruct (Ascii.eqb c sep); [by eexists _, _|].
  destruct (split_on sep s); by eexists _, _.
Qed.

Lemma join_with_cons (sep : Ascii.ascii) (piece piece' : string) (pieces : list string) :
  join_with sep (piece :: piece' :: pieces)
  = piece +:+ String sep (join_with sep (piece' :: pieces)).
Proof. done. Qed.

Lemma join_split (sep : Ascii.ascii) (s : string) :
  join_with sep (split_on sep s) = s.
Proof.
  induction s as [|c s IH]; [done|]. cbn [split_on].
  destruct (split_on_cons sep s) as (piece & pieces & Es). rewrite Es in *.
  destruct (Ascii.eqb c sep) eqn:E.
  - apply Ascii.eqb_eq in E as ->. by rewrite join_with_cons, IH.
  - destruct pieces as [|piece' pieces].
    + cbn in *. by rewrite IH.
    + rewrite join_with_cons in *. by rewrite <- IH.
Qed.

Lemma split_pieces_free (sep : Ascii.ascii) (s : string) :
  Forall (λ piece, has_char sep piece = false) (split_on sep s).
Proof.
  induction s as [|c s IH]; [by repeat constructor|]. cbn [split_on].
  destruct (Ascii.eqb c sep) eqn:E; [by constructor|].
  destruct (split_on sep s) as [|piece pieces];
    [repeat constructor; cbn [has_char]; by rewrite E|].
  inversion IH as [|? ? Hp Hps]; subst. constructor; [|done].
  cbn [has_char]. by rewrite E, Hp.
Qed.

Lemma split_join (sep : Ascii.ascii) (pieces : list string) :
  pieces ≠ [] → Forall (λ piece, has_char sep piece = false) pieces →
  split_on sep (join_with sep pieces) = pieces.
Proof.
  assert (Hone : ∀ piece, has_char sep piece = false → split_on sep piece = [piece]).
  { induction piece as [|c piece IH]; [done|]. cbn [has_char split_on].
    intros [Hc Hp]%orb_false_iff. rewrite Hc. by rewrite (IH Hp). }
  assert (Hcat : ∀ piece rest, has_char sep piece = false →
            split_on sep (piece +:+ String sep rest) = piece :: split_on sep rest).
  { induction piece as [|c piece IH]; intros rest.
    - intros _. change ("" +:+ String sep rest) with (String sep rest).
      cbn [split_on]. by rewrite Ascii.eqb_refl.
    - change (String c piece +:+ String sep rest)
        with (String c (piece +:+ String sep rest)).
      cbn [has_char split_on]. intros [Hc Hp]%orb_false_iff.
      rewrite Hc. by rewrite (IH rest Hp). }
  induction pieces as [|piece pieces IH]; [done|]. intros _ Hfree.
  inversion Hfree as [|? ? Hp Hps]; subst.
  destruct pieces as [|piece' pieces]; [by apply Hone|].
  cbn [join_with]. rewrite Hcat by done. f_equal. by apply IH.
Qed.

(** Closes [∀ k, k ∈ before → is_Some (cfg !! k)] for a listed [before]
    whose lookups are among the hypotheses. *)
Ltac keys_defined :=
  let k := fresh "k" in
  let Hk := fresh "Hk" in
  intros k Hk; cbn in Hk;
  repeat (apply elem_of_cons in Hk as [->|Hk]; [by eexists|]);
  by apply elem_of_nil in Hk.

(** X14. Loading the settings fails with the error of a missing key exactly
    for the first key, in the order in which the module reads them, that
    none of the three layers defines. *)
Theorem load_fails_on_first_missing_key
    (env_shared env_secret os_environ : gmap string (option string)) (key : string) :
  load_settings env_shared env_secret os_environ = inl (MissingSetting key)
  ↔ ∃ before after,
      required_keys = before ++ key :: after
      ∧ (∀ layer, layer ∈ [env_shared; env_secret; os_environ] → layer !! key = None)
      ∧ ∀ k, k ∈ before → is_Some (config env_shared env_secret os_environ !! k).
Proof.
  assert (Hlayers :
    (∀ layer, layer ∈ [env_shared; env_secret; os_environ] → layer !! key = None)
    ↔ config env_shared env_secret os_environ !! key = None).
  { symmetry. apply (config_three_layers env_shared env_secret os_environ key). }
  setoid_rewrite Hlayers. clear Hlayers.
  unfold load_settings, config_get, required_keys.
  set (cfg := config env_shared env_secret os_environ). clearbody cfg.
  split.
  - destruct (cfg !! "AIRTABLE_ACCESS_TOKEN") as [v1|] eqn:E1;
      [|intros [= <-]; exists (take 0 required_keys), (drop 1 required_keys);
        split_and!; [done..|keys_defined]].
    destruct (cfg !! "AIRTABLE_BASE_ID") as [v2|] eqn:E2;
      [|intros [= <-]; exists (take 1 required_keys), (drop 2 required_keys);
        split_and!; [done..|keys_defined]].
    destruct (cfg !! "AIRTABLE_TABLE_NAME") as [v3|] eqn:E3;
      [|intros [= <-]; exists (take 2 required_keys), (drop 3 required_keys);
        split_and!; [done..|keys_defined]].
    destruct (cfg !! "CSV_EXPORT_URL") as [v4|] eqn:E4;
      [|intros [= <-]; exists (take 3 required_keys), (drop 4 required_keys);
        split_and!; [done..|keys_defined]].
    destruct (cfg !! "PIVOT_COLUMN") as [v5|] eqn:E5;
      [|intros [= <-]; exists (take 4 required_keys), (drop 5 required_keys);
        split_and!; [done..|keys_defined]].
    destruct (cfg !! "COLUMNS_TO_CHECK") as [[v6|]|] eqn:E6; [done|done|].
    intros [= <-]. exists (take 5 required_keys), (drop 6 required_keys).
    split_and!; [done..|keys_defined].
  - intros (before & after & Hkeys & Hnone & Hbefore).
    assert (Hsome : ∀ k, k ∈ before → ∃ v, cfg !! k = Some v)
      by (intros k Hk; by apply Hbefore).
    do 6 (destruct before as [|? before];
          [injection Hkeys as <- _; rewrite ?Hnone; try done;
           repeat match goal with
                  | |- context [cfg !! ?k] =>
                      lazymatch goal with
                      | H : cfg !! k = None |- _ => fail
                      | _ => destruct (Hsome k) as [? ->]; [by repeat constructor|]
                      end
                  end; by rewrite ?Hnone
          |injection Hkeys as <- Hkeys]).
    by destruct before.
Qed.

(** X15. When the process environment defines the six keys, loading succeeds
    and every setting is the environment's, whatever the two files hold. *)
Theorem environment_alone_configures
    (env_shared env_secret os_environ : gmap string (option string))
    (token base_id table_name export_url pivot columns : string) :
  os_environ !! "AIRTABLE_ACCESS_TOKEN" = Some (Some token) →
  os_environ !! "AIRTABLE_BASE_ID" = Some (Some base_id) →
  os_environ !! "AIRTABLE_TABLE_NAME" = Some (Some table_name) →
  os_environ !! "CSV_EXPORT_URL" = Some (Some export_url) →
  os_environ !! "PIVOT_COLUMN" = Some (Some pivot) →
  os_environ !! "COLUMNS_TO_CHECK" = Some (Some columns) →
  load_settings env_shared env_secret os_environ
  = inr (mkSettings (Some token) (Some base_id) (Some table_name)
           ("https://api.airtable.com/v0/" +:+ base_id +:+ "/" +:+ table_name)
           (Some export_url) ("Bearer " +:+ token) (Some pivot)
           (split_on comma columns)).
Proof.
  intros H1 H2 H3 H4 H5 H6. unfold load_settings, config_get.
  by rewrite !config_lookup, H1, H2, H3, H4, H5, H6.
Qed.

(** X16. The compared-field list of loaded settings is the COLUMNS_TO_CHECK
    text cut at its commas: it is never empty, no name holds a comma, and
    the names joined by commas give the text back (nothing is trimmed); and
    every non-empty list of comma-free names is cut back out of its join. *)
Theorem compared_columns_are_the_comma_pieces
    (env_shared env_secret os_environ : gmap string (option string)) (st : settings) :
  load_settings env_shared env_secret os_environ = inr st →
  (∃ text,
     config env_shared env_secret os_environ !! "COLUMNS_TO_CHECK" = Some (Some text)
     ∧ join_with comma (s_columns_to_check st) = text
     ∧ s_columns_to_check st ≠ []
     ∧ Forall (λ name, has_char comma name = false) (s_columns_to_check st))
  ∧ ∀ names, names ≠ [] → Forall (λ name, has_char comma name = false) names →
      split_on comma (join_with comma names) = names.
Proof.
  intros Hload. split; [|intros names; apply split_join].
  unfold load_settings, config_get in Hload.
  set (cfg := config env_shared env_secret os_environ) in *. clearbody cfg.
  destruct (cfg !! "AIRTABLE_ACCESS_TOKEN"); [|done].
  destruct (cfg !! "AIRTABLE_BASE_ID"); [|done].
  destruct (cfg !! "AIRTABLE_TABLE_NAME"); [|done].
  destruct (cfg !! "CSV_EXPORT_URL"); [|done].
  destruct (cfg !! "PIVOT_COLUMN"); [|done].
  destruct (cfg !! "COLUMNS_TO_CHECK") as [[text|]|]; [|done..].
  injection Hload as <-. cbn [s_columns_to_check]. exists text.
  split_and!; [done|apply join_split| |apply split_pieces_free].
  by destruct (split_on_cons comma text) as (piece & pieces & ->).
Qed.

End Script.

(** * The scenarios of the specification and other runs *)

(** remote = [{pivot: "A1", status: "open", id: "r1"}],
    export = [{pivot: "A1", status: "closed"}]:
    one update to "r1" with {status: "closed"}. *)
Example scenario_update :
  writes_of (emitted
    (synchronize_different_records "pivot" ["status"]
       (sample_world [] 200 (export_table []) 200)
       (remote_table [airtable_record "r1" [("pivot", Str "A1"); ("status", Str "open")]])
       (PyFrame (export_table [[("pivot", Str "A1"); ("status", Str "closed")]]))) [])
  = [PATCH (Str "r1") {["status" := Str "closed"]}].
Proof. vm_compute. reflexivity. Qed.

(** remote = [{pivot: "C3"}], export = []: the report shows "C3". *)
Example scenario_report :
  let remote := remote_table [airtable_record "r3" [("pivot", Str "C3")]] in
  emitted (synchronize_deleted_records "pivot" remote (PyFrame (export_table []))) []
  = [Print MSyncDeleted; Print (MFoundDeleted 1); Print (MFrame remote)].
Proof. vm_compute. reflexivity. Qed.

(** C2 fails on the code.  The scenario of the specification, remote = [] and
    export = [{pivot: "B2", status: "open"}]: Airtable lists no record, the
    frame built from the listing has no columns, and the insert pass raises
    KeyError at its first line; the run itself stops before that, in the
    diff pass.  The record "B2" is not created. *)
Example empty_airtable_table_gets_no_record :
  let export := export_table [[("pivot", Str "B2"); ("status", Str "open")]] in
  let W := sample_world [] 200 export 200 in
  result (get_airtable_data W 1) [] = Ret (remote_table [])
  ∧ synchronize_missing_records "pivot" ["status"] W (remote_table []) (PyFrame export) []
    = ([Print MSyncMissing], Raise (KeyError (Str "pivot")))
  ∧ main "pivot" ["status"] W 1 []
    = ([Print MStep1; Request (GET_table None); Print (MFoundAirtable 0); Print MBlank;
        Print MStep2; Request GET_export; Print (MFoundExport 1); Print MBlank;
        Print MStep3; Print MSyncDifferent],
       Raise (KeyError (Str "pivot"))).
Proof. intros export W. split_and!; vm_compute; reflexivity. Qed.

(** With one record listed, the same export row is created. *)
Example scenario_create :
  synchronize_missing_records "pivot" ["status"]
    (sample_world [] 200 (export_table []) 200)
    (remote_table [airtable_record "r1" [("pivot", Str "A1"); ("status", Str "open")]])
    (PyFrame (export_table [[("pivot", Str "B2"); ("status", Str "open")]])) []
  = ([Print MSyncMissing; Print (MFoundMissing 1);
      Print (MCreating [{["pivot" := Str "B2"; "status" := Str "open"]}]);
      Request (POST [{["pivot" := Str "B2"; "status" := Str "open"]}]);
      Print MCreateOk],
     Ret tt).
Proof. vm_compute. reflexivity. Qed.

(** A server that rejects every write: each failure is logged and the next
    record is tried. *)
Example scenario_rejected_updates :
  let remote := remote_table
    [airtable_record "r1" [("pivot", Str "A1"); ("status", Str "open")];
     airtable_record "r2" [("pivot", Str "A2"); ("status", Str "open")]] in
  let export := export_table
    [[("pivot", Str "A2"); ("status", Str "done")];
     [("pivot", Str "A1"); ("status", Str "closed")]] in
  synchronize_different_records "pivot" ["status"]
    (sample_world [] 200 export 422) remote (PyFrame export) []
  = ([Print MSyncDifferent; Print (MFoundDifferent 2);
      Request (PATCH (Str "r1") {["status" := Str "closed"]});
      Print (MUpdateError (Str "r1") 422);
      Request (PATCH (Str "r2") {["status" := Str "done"]});
      Print (MUpdateError (Str "r2") 422)],
     Ret tt).
Proof. vm_compute. reflexivity. Qed.


(** C7 fails on the code.  Two export rows are missing in Airtable and a
    gateway answers every write with 502 and an HTML page.  The insert pass
    logs the status of the first create; then [response.json()] raises
    JSONDecodeError on the body, the loop is left, and the second record is
    never tried. *)
Example undecodable_refusal_aborts_the_batch :
  let remote :=
    remote_table [airtable_record "r1" [("pivot", Str "A1"); ("status", Str "open")]] in
  let export := export_table [[("pivot", Str "B2"); ("status", Str "open")];
                              [("pivot", Str "C3"); ("status", Str "late")]] in
  synchronize_missing_records "pivot" ["status"] (html_error_world [] export)
    remote (PyFrame export) []
  = ([Print MSyncMissing; Print (MFoundMissing 2);
      Print (MCreating [{["pivot" := Str "B2"; "status" := Str "open"]}]);
      Request (POST [{["pivot" := Str "B2"; "status" := Str "open"]}]);
      Print (MCreateError 502)],
     Raise JSONDecodeError).
Proof. vm_compute. reflexivity. Qed.


(** C4 fails on the code.  Six remote records are absent from the export;
    the report counts six and prints the first five rows: "P6" is not in
    the output. *)
Example sixth_deleted_record_not_reported :
  let remote := remote_table
    [airtable_record "r1" [("pivot", Str "P1")]; airtable_record "r2" [("pivot", Str "P2")];
     airtable_record "r3" [("pivot", Str "P3")]; airtable_record "r4" [("pivot", Str "P4")];
     airtable_record "r5" [("pivot", Str "P5")]; airtable_record "r6" [("pivot", Str "P6")]] in
  let run := synchronize_deleted_records "pivot" remote (PyFrame (export_table [])) in
  ∃ shown, emitted run []
           = [Print MSyncDeleted; Print (MFoundDeleted 6); Print (MFrame shown)]
    ∧ column shown "pivot" = [Str "P1"; Str "P2"; Str "P3"; Str "P4"; Str "P5"]
    ∧ Str "P6" ∈ column remote "pivot".
Proof.
  intros remote run. exists (df_head remote).
  split; [by vm_compute|]. split; [by vm_compute|].
  vm_compute. by repeat constructor.
Qed.

(** C5 fails on the code.  The export answers 404: the orchestrator does not
    look at what [get_csv_export_data] returned and runs the diff pass on
    the error text, which prints its banner and raises TypeError. *)
Example failed_export_reaches_diff_pass :
  main "pivot" ["status"]
    (sample_world [airtable_record "r1" [("pivot", Str "A1"); ("status", Str "open")]]
       404 (export_table []) 200) 1 []
  = ([Print MStep1; Request (GET_table None); Print (MFoundAirtable 1); Print MBlank;
      Print MStep2; Request GET_export; Print MBlank;
      Print MStep3; Print MSyncDifferent],
     Raise TypeError).
Proof. vm_compute. reflexivity. Qed.

(** * Witnesses

    The theorems with hypotheses, applied to sample runs. *)

Lemma updates_carry_only_compared_fields_witness :
  let remote :=
    remote_table [airtable_record "r1" [("pivot", Str "A1"); ("status", Str "open")]] in
  let export := export_table [[("pivot", Str "A1"); ("status", Str "closed");
                               ("owner", Str "pcrs")]] in
  ∃ r re fields,
    r ∈ rows remote ∧ re ∈ rows export
    ∧ PATCH (Str "r1") {["status" := Str "closed"]} = PATCH (r @@ "airtable_record_id") fields
    ∧ dom fields = list_to_set ["status"].
Proof.
  intros remote export.
  destruct (updates_carry_only_compared_fields "pivot" ["status"]
              (sample_world [] 200 export 200) remote (PyFrame export) []
              (PATCH (Str "r1") {["status" := Str "closed"]}))
    as (export' & r & re & fields & [= <-] & Hr & Hre & _ & Hq & Hdom & _).
  - vm_compute. left.
  - by exists r, re, fields.
Defined.


Lemma pagination_accumulates_all_pages_witness :
  let W := two_page_world
    [airtable_record "r1" [("pivot", Str "A1")]; airtable_record "r2" [("pivot", Str "A2")]]
    [airtable_record "r3" [("pivot", Str "A3")]] in
  ∃ df, result (get_airtable_data W 2) [] = Ret df
        ∧ column df "airtable_record_id" = [Str "r1"; Str "r2"; Str "r3"]
        ∧ length (rows df) = (1 * 2 + 1)%nat.
Proof.
  intros W.
  destruct (pagination_accumulates_all_pages W [] 1 2) as (df & Hret & Hrows & _ & HK).
  - intros [|i] Hi; [by vm_compute|lia].
  - by vm_compute.
  - lia.
  - exists df. split; [exact Hret|]. split.
    + unfold column. rewrite Hrows. by vm_compute.
    + rewrite (HK 2%nat).
      * by vm_compute.
      * intros [|i] Hi; [by vm_compute|lia].
Defined.

Lemma config_latest_layer_wins_witness :
  config {["PIVOT_COLUMN" := Some "id"; "CSV_EXPORT_URL" := Some "https://shared"]}
         {["PIVOT_COLUMN" := Some "ref"]}
         {["HOME" := Some "/root"]}
    !! "PIVOT_COLUMN" = Some (Some "ref").
Proof.
  apply (config_latest_layer_wins ∅
           {["PIVOT_COLUMN" := Some "id"; "CSV_EXPORT_URL" := Some "https://shared"]}
           {["PIVOT_COLUMN" := Some "ref"]}
           {["HOME" := Some "/root"]}
           "PIVOT_COLUMN" 1 2
           {["PIVOT_COLUMN" := Some "id"; "CSV_EXPORT_URL" := Some "https://shared"]}
           {["PIVOT_COLUMN" := Some "ref"]}).
  - lia.
  - reflexivity.
  - exists (Some "id"). by vm_compute.
  - reflexivity.
  - by vm_compute.
  - intros [|[|[|[|j']]]] later Hj Hl; try lia; cbn in Hl; [|done].
    injection Hl as <-. by vm_compute.
Defined.

Lemma pagination_terminates_iff_last_page_witness :
  (∃ df, result (get_airtable_data
                   (two_page_world [airtable_record "r1" []] [airtable_record "r2" []]) 2) []
         = Ret df)
  ∧ ∀ fuel, result (get_airtable_data endless_world fuel) [] = OutOfFuel.
Proof.
  split.
  - apply (proj1 (proj2 (pagination_terminates_iff_last_page
             (two_page_world [airtable_record "r1" []] [airtable_record "r2" []]) []))
             1%nat 2%nat); [by vm_compute|lia].
  - apply (proj2 (proj2 (pagination_terminates_iff_last_page endless_world []))).
    intros n. unfold last_page, nth_page, endless_world. done.
Defined.

(** * Witnesses of the further properties *)

Lemma diff_updates_exactly_differing_pairs_witness :
  let remote :=
    remote_table [airtable_record "r1" [("pivot", Str "A1"); ("status", Str "open")];
                  airtable_record "r2" [("pivot", Str "A2"); ("status", Str "open")];
                  airtable_record "r3" [("pivot", Str "A3"); ("status", Str "open")]] in
  let export := export_table [[("pivot", Str "A1"); ("status", Str "closed")];
                              [("pivot", Str "A2")];
                              [("pivot", Str "A3"); ("status", Str "closed")]] in
  let run := synchronize_different_records "pivot" ["status"]
               (sample_world [] 200 export 422) remote (PyFrame export) in
  emitted run []
  = [Print MSyncDifferent; Print (MFoundDifferent 3);
     Request (PATCH (Str "r1") {["status" := Str "closed"]});
     Print (MUpdateError (Str "r1") 422)]
  ∧ result run [] = Raise (InvalidJSONError (PATCH (Str "r2") {["status" := NaN]})).
Proof.
  intros remote export run.
  destruct (diff_updates_exactly_differing_pairs "pivot" ["status"]
              (sample_world [] 200 export 422) remote export [])
    as (_ & Hem & _ & Hres & _).
  - unfold diff_ready. split_and!; try (by vm_compute).
    intros c ->%list_elem_of_singleton. split_and!; by vm_compute.
  - split; [etrans; [exact Hem|by vm_compute]|etrans; [exact Hres|by vm_compute]].
Defined.

Lemma printed_count_is_number_of_requests_witness :
  let remote :=
    remote_table [airtable_record "r1" [("pivot", Str "A1"); ("status", Str "open")]] in
  let export := export_table [[("pivot", Str "A1"); ("status", Str "closed")];
                              [("pivot", Str "B2"); ("status", Str "open")]] in
  let W := sample_world [] 200 export 422 in
  (∃ n, take 2 (emitted (synchronize_different_records "pivot" ["status"] W remote
                           (PyFrame export)) [])
        = [Print MSyncDifferent; Print (MFoundDifferent n)] ∧ n = 1%nat)
  ∧ (∃ n, take 2 (emitted (synchronize_missing_records "pivot" ["status"] W remote
                             (PyFrame export)) [])
          = [Print MSyncMissing; Print (MFoundMissing n)] ∧ n = 1%nat).
Proof.
  intros remote export W.
  destruct (printed_count_is_number_of_requests "pivot" ["status"] W remote export [])
    as [Hdiff Hins].
  split.
  - destruct Hdiff as (n & Htake & _ & Hn).
    + unfold diff_ready. split_and!; try (by vm_compute).
      intros c ->%list_elem_of_singleton. split_and!; by vm_compute.
    + exists n. split; [exact Htake|]. rewrite <- Hn; by vm_compute.
  - destruct Hins as (n & Htake & _ & Hn); [by vm_compute..|].
    exists n. split; [exact Htake|]. rewrite <- Hn; by vm_compute.
Defined.

Lemma insert_creates_only_missing_witness :
  let remote :=
    remote_table [airtable_record "r1" [("pivot", Str "A1"); ("status", Str "open")]] in
  let export := export_table [[("pivot", Str "A1"); ("status", Str "closed")];
                              [("pivot", Str "B2"); ("status", Str "open")]] in
  ∃ r, r ∈ rows export
       ∧ existsb (cell_same (r @@ "pivot")) (column remote "pivot") = false
       ∧ POST [{["pivot" := Str "B2"; "status" := Str "open"]}]
         = POST [new_record "pivot" ["status"] r].
Proof.
  intros remote export.
  destruct (insert_creates_only_missing "pivot" ["status"]
              (sample_world [] 200 export 200) remote (PyFrame export) []
              (POST [{["pivot" := Str "B2"; "status" := Str "open"]}]))
    as (export' & r & [= <-] & Hr & Hm & Hq).
  - vm_compute. left.
  - by exists r.
Defined.

Lemma missing_pivot_created_per_row_witness :
  let remote :=
    remote_table [airtable_record "r1" [("pivot", Str "A1"); ("status", Str "open")]] in
  let export := export_table [[("pivot", Str "B2"); ("status", Str "open")];
                              [("pivot", Str "A1"); ("status", Str "open")];
                              [("pivot", Str "B2"); ("status", Str "late")]] in
  length (filter (creates_for "pivot" (Str "B2"))
            (writes_of (emitted (synchronize_missing_records "pivot" ["status"]
                                   (sample_world [] 200 export 200) remote
                                   (PyFrame export)) [])))
  = 2%nat.
Proof.
  intros remote export.
  destruct (missing_pivot_created_per_row "pivot" ["status"]
              (sample_world [] 200 export 200) remote export (Str "B2") [])
    as [_ Hall].
  - by vm_compute.
  - rewrite Hall; by vm_compute.
Defined.

Lemma insert_with_missing_compared_column_witness :
  let remote :=
    remote_table [airtable_record "r1" [("pivot", Str "A1"); ("status", Str "open")]] in
  let export := export_table [[("pivot", Str "B2"); ("status", Str "open")]] in
  let run := synchronize_missing_records "pivot" ["status"; "owner"]
               (sample_world [] 200 export 200) remote (PyFrame export) in
  emitted run [] = [Print MSyncMissing; Print (MFoundMissing 1)]
  ∧ ∃ c', result run [] = Raise (KeyError (Str c')).
Proof.
  intros remote export run.
  destruct (insert_with_missing_compared_column "pivot" ["status"; "owner"]
              (sample_world [] 200 export 200) remote export "owner" [])
    as (Hem & _ & Hraise).
  - by vm_compute.
  - by vm_compute.
  - right. left.
  - by vm_compute.
  - split; [etrans; [exact Hem|by vm_compute]|].
    destruct Hraise as (c' & _ & _ & Hres); [by vm_compute|].
    by exists c'.
Defined.

Lemma diff_with_missing_compared_column_witness :
  let remote :=
    remote_table [airtable_record "r1" [("pivot", Str "A1"); ("status", Str "open")]] in
  let export := export_table [[("pivot", Str "A1"); ("status", Str "open")]] in
  ∃ c', synchronize_different_records "pivot" ["status"; "pivot"]
          (sample_world [] 200 export 200) remote (PyFrame export) []
        = ([Print MSyncDifferent], Raise (KeyError (Str c'))).
Proof.
  intros remote export.
  destruct (diff_with_missing_compared_column "pivot" ["status"; "pivot"]
              (sample_world [] 200 export 200) remote export "pivot" [])
    as (c' & _ & _ & E).
  - by vm_compute.
  - by vm_compute.
  - by vm_compute.
  - by vm_compute.
  - right. left.
  - by right; right.
  - by exists c'.
Defined.

Lemma report_counts_all_and_shows_five_witness :
  let remote := remote_table [airtable_record "r3" [("pivot", Str "C3")]] in
  emitted (synchronize_deleted_records "pivot" remote (PyFrame (export_table []))) []
  = [Print MSyncDeleted; Print (MFoundDeleted 1); Print (MFrame remote)].
Proof.
  intros remote.
  destruct (report_counts_all_and_shows_five "pivot" remote (export_table []) [])
    as [_ Hem].
  - by vm_compute.
  - by vm_compute.
  - rewrite Hem. by vm_compute.
Defined.

Lemma listing_requests_chain_the_tokens_witness :
  emitted (get_airtable_data
             (two_page_world [airtable_record "r1" []; airtable_record "r2" []]
                             [airtable_record "r3" []]) 2) []
  = [Request (GET_table None); Request (GET_table (Some "itr2"));
     Print (MFoundAirtable 3)].
Proof.
  rewrite (listing_requests_chain_the_tokens
             (two_page_world [airtable_record "r1" []; airtable_record "r2" []]
                             [airtable_record "r3" []]) [] 1 2).
  - by vm_compute.
  - intros [|i] Hi; [by vm_compute|lia].
  - by vm_compute.
  - lia.
Defined.

Lemma fetched_table_carries_record_ids_witness :
  ∃ df, result (get_airtable_data
                  (two_page_world
                     [airtable_record "r1" [("airtable_record_id", Str "mine")]]
                     [mkRecord None None]) 2) [] = Ret df
        ∧ column df "airtable_record_id" = [Str "r1"; NaN].
Proof.
  destruct (fetched_table_carries_record_ids
              (two_page_world
                 [airtable_record "r1" [("airtable_record_id", Str "mine")]]
                 [mkRecord None None]) [] 1 2)
    as (df & Hres & Hids & _).
  - intros [|i] Hi; [by vm_compute|lia].
  - by vm_compute.
  - lia.
  - exists df. split; [exact Hres|]. rewrite Hids. by vm_compute.
Defined.

Lemma empty_listing_stops_the_run_witness :
  let export := export_table [[("pivot", Str "B2"); ("status", Str "open")]] in
  let run := main "pivot" ["status"] (sample_world [] 200 export 200) 1 in
  result run [] = Raise (KeyError (Str "pivot")) ∧ writes_of (emitted run []) = [].
Proof.
  intros export run.
  apply (empty_listing_stops_the_run "pivot" ["status"]
           (sample_world [] 200 export 200) [] 0 1).
  - intros i Hi. lia.
  - by vm_compute.
  - lia.
  - intros i Hi. assert (i = 0)%nat as -> by lia. by vm_compute.
Defined.


Lemma load_fails_on_first_missing_key_witness :
  load_settings
    {["AIRTABLE_BASE_ID" := Some "app1"; "AIRTABLE_TABLE_NAME" := Some "Projects"]}
    {["AIRTABLE_ACCESS_TOKEN" := Some "secret"]}
    {["PIVOT_COLUMN" := Some "pivot"]}
  = inl (MissingSetting "CSV_EXPORT_URL").
Proof.
  apply load_fails_on_first_missing_key.
  exists (take 3 required_keys), (drop 4 required_keys). split_and!.
  - reflexivity.
  - intros layer Hl.
    repeat (apply elem_of_cons in Hl as [->|Hl]; [by vm_compute|]).
    by apply elem_of_nil in Hl.
  - intros k Hk. cbn in Hk.
    repeat (apply elem_of_cons in Hk as [->|Hk]; [eexists; by vm_compute|]).
    by apply elem_of_nil in Hk.
Defined.

Lemma environment_alone_configures_witness :
  ∃ st, load_settings
          {["COLUMNS_TO_CHECK" := Some "name"]} {["PIVOT_COLUMN" := None]}
          {["AIRTABLE_ACCESS_TOKEN" := Some "secret"; "AIRTABLE_BASE_ID" := Some "app1";
            "AIRTABLE_TABLE_NAME" := Some "Projects";
            "CSV_EXPORT_URL" := Some "https://pcrs";
            "PIVOT_COLUMN" := Some "pivot"; "COLUMNS_TO_CHECK" := Some "status, owner"]}
        = inr st
        ∧ s_pivot_column st = Some "pivot"
        ∧ s_columns_to_check st = ["status"; " owner"].
Proof.
  eexists. split.
  - apply (environment_alone_configures _ _ _
             "secret" "app1" "Projects" "https://pcrs" "pivot" "status, owner");
      by vm_compute.
  - split; by vm_compute.
Defined.

Lemma compared_columns_are_the_comma_pieces_witness :
  join_with comma ["status"; "owner"] = "status,owner"
  ∧ split_on comma (join_with comma ["status"; "owner"]) = ["status"; "owner"].
Proof.
  destruct (compared_columns_are_the_comma_pieces ∅ ∅
              {["AIRTABLE_ACCESS_TOKEN" := Some "secret"; "AIRTABLE_BASE_ID" := Some "app1";
                "AIRTABLE_TABLE_NAME" := Some "Projects";
                "CSV_EXPORT_URL" := Some "https://pcrs";
                "PIVOT_COLUMN" := Some "pivot";
                "COLUMNS_TO_CHECK" := Some "status,owner"]}
              (mkSettings (Some "secret") (Some "app1") (Some "Projects")
                 "https://api.airtable.com/v0/app1/Projects" (Some "https://pcrs")
                 "Bearer secret" (Some "pivot") ["status"; "owner"]))
    as [(text & Hcfg & Hjoin & _) Hsplit].
  - by vm_compute.
  - split.
    + vm_compute in Hcfg. injection Hcfg as <-. exact Hjoin.
    + apply Hsplit; [done|]. by repeat constructor.
Defined.
